(** * FlashTest: the simulated NOR flash behind AP_FlashStorage

    A shallow embedding of
    [libraries/AP_FlashStorage/examples/FlashTest/FlashTest.cpp]:
    the three flash primitives [flash_write], [flash_read] and
    [flash_erase] that the example hands to the storage engine as
    callbacks, and the harness function [write] that updates the two
    in-memory images before it calls the engine.

    Unsigned C integers are [Z] with the wrap-around written where the
    source computes in a fixed width; a [uint8_t] buffer is a [list Z]
    indexed from 0.  A call ends in one of three ways: it returns, it
    stops in [AP_HAL::panic], or it leaves the allocated buffers, which C
    leaves undefined. *)

From Stdlib Require Import ZArith Lia.
From stdpp Require Import base decidable option list numbers.

Local Open Scope Z_scope.

(** ** Results of a call *)

(** One constructor per [AP_HAL::panic] site, with the arguments of its
    format string. *)
Inductive panic : Type :=
| FatalWriteSector (sector : Z)
| FatalWriteRange (sector offset length : Z)
| FatalInvalidWrite (sector offset length : Z)
| FatalInvalidWrite16 (sector pos b_i data_i : Z)
| FatalReadSector (sector : Z)
| FatalReadRange (sector offset length : Z)
| FatalEraseSector (sector : Z).

(** [Panicked] keeps the memory as it stood when the process stopped. *)
Inductive outcome (St A : Type) : Type :=
| Returned (a : A) (st : St)
| Panicked (p : panic) (st : St)
| Undefined.

Arguments Returned {St A} a st.
Arguments Panicked {St A} p st.
Arguments Undefined {St A}.

Definition is_panicked {St A} (o : outcome St A) : Prop :=
  match o with Panicked _ _ => True | _ => False end.

Definition is_returned {St A} (o : outcome St A) : Prop :=
  match o with Returned _ _ => True | _ => False end.

Definition outcome_map {St St' A} (f : St -> St') (o : outcome St A) : outcome St' A :=
  match o with
  | Returned a st => Returned a (f st)
  | Panicked p st => Panicked p (f st)
  | Undefined => Undefined
  end.

(** ** Fixed-width integers and buffers *)

Definition uint8_t (x : Z) : Prop := 0 <= x < 256.
Definition uint16_t (x : Z) : Prop := 0 <= x < 65536.
Definition uint32_t (x : Z) : Prop := 0 <= x < 4294967296.

(** Sum of a [uint32_t] and a promoted [uint16_t], as C computes it. *)
Definition add32 (a b : Z) : Z := (a + b) mod 4294967296.

Definition is_byte (x : Z) : bool := (0 <=? x) && (x <? 256).

(** Every cell of a [uint8_t] buffer holds a value of its type. *)
Definition bytes (b : list Z) : Prop := forallb is_byte b = true.

(** [p[i]] for a buffer [p]; [None] outside the buffer. *)
Definition byte_at (p : list Z) (i : Z) : option Z :=
  if 0 <=? i then p !! Z.to_nat i else None.

(** [p[i] = x] for a cell inside the buffer. *)
Definition set_byte (p : list Z) (i x : Z) : option (list Z) :=
  if (0 <=? i) && (i <? Z.of_nat (length p)) then Some (<[Z.to_nat i := x]> p) else None.

(** Modelled from the spec: [AP_HAL/utility/sparse-endian.h] is not part of
    the sources at hand.  The flash write granularity is defined in 16-bit
    units; [le16toh_ptr] reads the 16-bit word stored least significant byte
    first at [p + pos]. *)
Definition le16toh_ptr (p : list Z) (pos : Z) : option Z :=
  match byte_at p pos, byte_at p (pos + 1) with
  | Some lo, Some hi => Some (Z.lor lo (Z.shiftl hi 8))
  | _, _ => None
  end.

(** Modelled from the spec: [AP_HAL/utility/sparse-endian.h] is not part of
    the sources at hand.  [put_le16_ptr] stores the 16-bit word [v] least
    significant byte first at [p + pos]. *)
Definition put_le16_ptr (p : list Z) (pos v : Z) : option (list Z) :=
  match set_byte p pos (Z.land v 255) with
  | Some p' => set_byte p' (pos + 1) (Z.shiftr v 8 mod 256)
  | None => None
  end.

(** [memcpy(&dst[pos], src, n)]: defined when [src] holds [n] bytes and
    [dst] has room for them at [pos]. *)
Definition memcpy (dst : list Z) (pos : Z) (src : list Z) (n : Z) : option (list Z) :=
  if (0 <=? pos) && (0 <=? n) && (n <=? Z.of_nat (length src))
     && (pos + n <=? Z.of_nat (length dst))
  then Some (take (Z.to_nat pos) dst ++ take (Z.to_nat n) src
             ++ drop (Z.to_nat (pos + n)) dst)
  else None.

(** [memset(&dst[0], c, n)]: defined when [dst] holds at least [n] bytes. *)
Definition memset (dst : list Z) (c n : Z) : option (list Z) :=
  if (0 <=? n) && (n <=? Z.of_nat (length dst))
  then Some (replicate (Z.to_nat n) c ++ drop (Z.to_nat n) dst)
  else None.

(** ** The simulated flash *)

Definition flash_sector_size : Z := 32 * 1024.

(** [uint8_t *flash[2]]: the two sector buffers. *)
Record Flash : Type := mkFlash { flash0 : list Z; flash1 : list Z }.

(** [flash[sector]], for [sector <= 1]. *)
Definition flash_at (fl : Flash) (sector : Z) : list Z :=
  if sector =? 0 then flash0 fl else flash1 fl.

Definition flash_with (fl : Flash) (sector : Z) (b : list Z) : Flash :=
  if sector =? 0 then mkFlash b (flash1 fl) else mkFlash (flash0 fl) b.

(** Both sectors are the [flash_sector_size] bytes that [loop] allocates. *)
Definition wf_sector (b : list Z) : Prop :=
  Z.of_nat (length b) = flash_sector_size /\ bytes b.

Definition wf_flash (fl : Flash) : Prop :=
  wf_sector (flash0 fl) /\ wf_sector (flash1 fl).

(** The C expression [!v2] as an integer. *)
Definition lnot_int (v2 : Z) : Z := if v2 =? 0 then 1 else 0.

(** The condition of the second check of the loop, compiled only when
    [AP_FLASHSTORAGE_MULTI_WRITE] is not defined. *)
Definition rewrite_check (v v2 : Z) : bool :=
  negb (v =? v2) && negb (v =? 65535) && negb (v2 =? 65535).

Section FlashPrimitives.

(** Whether the macro [AP_FLASHSTORAGE_MULTI_WRITE] is defined; the header
    [AP_FlashStorage.h] that would decide it is not part of the sources at
    hand. *)
Variable AP_FLASHSTORAGE_MULTI_WRITE : bool.

Section WriteLoop.
Variables (sector offset : Z) (data : list Z).

(** The [for] loop of [flash_write] over the sector buffer: [n] words
    remain, [i] is the loop index, and [b[k]] of the source is
    [buf[offset + k]]. *)
Fixpoint write16_loop (n : nat) (i : Z) (buf : list Z) : outcome (list Z) bool :=
  match n with
  | O => Returned true buf
  | S n' =>
    match le16toh_ptr data (i * 2), le16toh_ptr buf (offset + i * 2) with
    | Some v, Some v2 =>
      if negb (Z.land v (lnot_int v2) =? 0) then
        Panicked (FatalInvalidWrite16 sector (add32 offset i)
                    (default 0 (byte_at buf (offset + i)))
                    (default 0 (byte_at data i))) buf
      else if negb AP_FLASHSTORAGE_MULTI_WRITE && rewrite_check v v2 then
        Panicked (FatalInvalidWrite16 sector (add32 offset i)
                    (default 0 (byte_at buf (offset + i)))
                    (default 0 (byte_at data i))) buf
      else
        match put_le16_ptr buf (offset + i * 2) (Z.land v2 v) with
        | Some buf' => write16_loop n' (i + 1) buf'
        | None => Undefined
        end
    | _, _ => Undefined
    end
  end.
End WriteLoop.

Definition flash_write (fl : Flash) (sector offset : Z) (data : list Z) (length : Z)
  : outcome Flash bool :=
  if sector >? 1 then Panicked (FatalWriteSector sector) fl
  else if add32 offset length >? flash_sector_size then
    Panicked (FatalWriteRange sector offset length) fl
  else if negb (Z.land offset 1 =? 0) || negb (Z.land length 1 =? 0) then
    Panicked (FatalInvalidWrite sector offset length) fl
  else
    let len16 := length / 2 in
    outcome_map (flash_with fl sector)
      (write16_loop sector offset data (Z.to_nat len16) 0 (flash_at fl sector)).

(** The bytes copied into [data] are the second component of the result. *)
Definition flash_read (fl : Flash) (sector offset length : Z)
  : outcome Flash (bool * list Z) :=
  if sector >? 1 then Panicked (FatalReadSector sector) fl
  else if add32 offset length >? flash_sector_size then
    Panicked (FatalReadRange sector offset length) fl
  else
    let src := flash_at fl sector in
    if (0 <=? offset) && (0 <=? length)
       && (offset + length <=? Z.of_nat (List.length src))
    then Returned (true, take (Z.to_nat length) (drop (Z.to_nat offset) src)) fl
    else Undefined.

Definition flash_erase (fl : Flash) (sector : Z) : outcome Flash bool :=
  if sector >? 1 then Panicked (FatalEraseSector sector) fl
  else
    match memset (flash_at fl sector) 255 flash_sector_size with
    | Some b => Returned true (flash_with fl sector b)
    | None => Undefined
    end.

End FlashPrimitives.

Arguments flash_sector_size : simpl never.

(** The first lines of [loop]: the two sectors have been allocated, with
    whatever bytes [malloc] left in them, and are erased in turn. *)
Definition loop_erase_both (fl : Flash) : outcome Flash bool :=
  match flash_erase fl 0 with
  | Returned _ fl1 => flash_erase fl1 1
  | o => o
  end.

(** The flash these lines leave. *)
Definition erased_sector : list Z := replicate (Z.to_nat flash_sector_size) 255.
Definition erased_flash : Flash := mkFlash erased_sector erased_sector.

(** The flash a call leaves behind, when it leaves one. *)
Definition final_flash {A} (o : outcome Flash A) : Flash :=
  match o with
  | Returned _ st => st
  | Panicked _ st => st
  | Undefined => erased_flash
  end.

(** Reachable flash contents used as concrete inputs: after the two erases
    of [loop], sector 0 has received one write at offset 0. *)
Definition flash_word0_1234 : Flash :=
  final_flash (flash_write false erased_flash 0 0 [52; 18] 2).

Definition flash_word0_00F0 : Flash :=
  final_flash (flash_write true erased_flash 0 0 [240; 0] 2).

Definition flash_word1_0000 : Flash :=
  final_flash (flash_write false erased_flash 0 0 [255; 255; 0; 0] 4).

(** The two checks of the loop body as one test on the data word [v] and
    the stored word [v2]: the body panics exactly when it holds. *)
Definition word_rejected (mw : bool) (v v2 : Z) : bool :=
  negb (Z.land v (lnot_int v2) =? 0) || (negb mw && rewrite_check v v2).

(** Word [k] of the request passed both checks against [buf] and [buf']
    holds the AND of what [buf] held and the data word. *)
Definition word_written (mw : bool) (offset : Z) (data buf buf' : list Z) (k : Z) : Prop :=
  exists v v2,
    le16toh_ptr data (k * 2) = Some v /\
    le16toh_ptr buf (offset + k * 2) = Some v2 /\
    word_rejected mw v v2 = false /\
    le16toh_ptr buf' (offset + k * 2) = Some (Z.land v2 v).

(** Word [k] of the request can be read on both sides and passes both
    checks against [buf]. *)
Definition word_accepted (mw : bool) (offset : Z) (data buf : list Z) (k : Z) : Prop :=
  exists v v2,
    le16toh_ptr data (k * 2) = Some v /\
    le16toh_ptr buf (offset + k * 2) = Some v2 /\
    word_rejected mw v v2 = false.

(** What the loop has done when it stops, in each of the three ways it can
    stop, for the [n] words from index [i] on. *)
Definition loop_post (mw : bool) (sector offset : Z) (data : list Z)
    (n : nat) (i : Z) (buf : list Z) (o : outcome (list Z) bool) : Prop :=
  match o with
  | Returned r buf' =>
    r = true /\ length buf' = length buf /\ bytes buf' /\
    (forall k, i <= k < i + Z.of_nat n -> word_written mw offset data buf buf' k) /\
    (forall j, j < offset + i * 2 \/ offset + (i + Z.of_nat n) * 2 <= j ->
               byte_at buf' j = byte_at buf j)
  | Panicked p buf' =>
    exists k v v2 bi di,
      i <= k < i + Z.of_nat n /\
      p = FatalInvalidWrite16 sector (add32 offset k) bi di /\
      le16toh_ptr data (k * 2) = Some v /\
      le16toh_ptr buf (offset + k * 2) = Some v2 /\
      word_rejected mw v v2 = true /\
      length buf' = length buf /\ bytes buf' /\
      (forall k', i <= k' < k -> word_written mw offset data buf buf' k') /\
      (forall j, j < offset + i * 2 \/ offset + k * 2 <= j ->
                 byte_at buf' j = byte_at buf j)
  | Undefined =>
    exists k, i <= k < i + Z.of_nat n /\
      (le16toh_ptr data (k * 2) = None \/ le16toh_ptr buf (offset + k * 2) = None) /\
      (forall k', i <= k' < k -> word_accepted mw offset data buf k')
  end.

(** ** The harness around the storage engine *)

(** A line printed by [FlashTest::write]. *)
Inductive output : Type :=
| FailedToWrite (offset length : Z).

(** What the [AP_FlashStorage] object can reach: its own members, the image
    [mem_buffer] it was constructed with, and the flash through the three
    callbacks. *)
Record Engine (Storage : Type) : Type := mkEngine {
  e_storage : Storage;
  e_buffer : list Z;
  e_flash : Flash
}.

Arguments mkEngine {Storage} _ _ _.
Arguments e_storage {Storage} _.
Arguments e_buffer {Storage} _.
Arguments e_flash {Storage} _.

(** The members of [class FlashTest], and the console. *)
Record FlashTest (Storage : Type) : Type := mkFlashTest {
  mem_buffer : list Z;
  mem_mirror : list Z;
  flash : Flash;
  storage : Storage;
  erase_ok : bool;
  console : list output
}.

Arguments mkFlashTest {Storage} _ _ _ _ _ _.
Arguments mem_buffer {Storage} _.
Arguments mem_mirror {Storage} _.
Arguments flash {Storage} _.
Arguments storage {Storage} _.
Arguments erase_ok {Storage} _.
Arguments console {Storage} _.

Section Harness.
Context {Storage : Type}.

(** [AP_FlashStorage::write(offset, length)], whose source
    ([AP_FlashStorage.cpp]) is not part of the sources at hand: any function
    of what the engine can reach and of the answer of [flash_erase_ok]. *)
Variable storage_write : bool -> Engine Storage -> Z -> Z -> outcome (Engine Storage) bool.

Definition flash_erase_ok (t : FlashTest Storage) : bool := erase_ok t.

Definition engine_of (t : FlashTest Storage) : Engine Storage :=
  mkEngine (storage t) (mem_buffer t) (flash t).

Definition with_engine (t : FlashTest Storage) (e : Engine Storage) : FlashTest Storage :=
  mkFlashTest (e_buffer e) (mem_mirror t) (e_flash e) (e_storage e) (erase_ok t) (console t).

Definition printf (t : FlashTest Storage) (line : output) : FlashTest Storage :=
  mkFlashTest (mem_buffer t) (mem_mirror t) (flash t) (storage t) (erase_ok t)
              (console t ++ [line]).

(** The two [memcpy] calls that open [FlashTest::write]. *)
Definition write_images (t : FlashTest Storage) (offset : Z) (data : list Z) (length : Z)
  : option (FlashTest Storage) :=
  match memcpy (mem_mirror t) offset data length with
  | None => None
  | Some mirror' =>
    match memcpy (mem_buffer t) offset data length with
    | None => None
    | Some buffer' =>
      Some (mkFlashTest buffer' mirror' (flash t) (storage t) (erase_ok t) (console t))
    end
  end.

(** The rest of [FlashTest::write]: the call of [storage.write] and the
    report of its failure. *)
Definition write_storage (t : FlashTest Storage) (offset length : Z)
  : outcome (FlashTest Storage) unit :=
  match storage_write (flash_erase_ok t) (engine_of t) offset length with
  | Returned ok e =>
    let t' := with_engine t e in
    if negb ok then
      if erase_ok t' then Returned tt (printf t' (FailedToWrite offset length))
      else Returned tt t'
    else Returned tt t'
  | Panicked p e => Panicked p (with_engine t e)
  | Undefined => Undefined
  end.

Definition write (t : FlashTest Storage) (offset : Z) (data : list Z) (length : Z)
  : outcome (FlashTest Storage) unit :=
  match write_images t offset data length with
  | Some t1 => write_storage t1 offset length
  | None => Undefined
  end.

End Harness.

(** The two images are arrays of [AP_FlashStorage::storage_size] bytes. *)
Definition wf_images {Storage} (storage_size : Z) (t : FlashTest Storage) : Prop :=
  Z.of_nat (length (mem_buffer t)) = storage_size /\
  Z.of_nat (length (mem_mirror t)) = storage_size.

(** The bytes [p[pos .. pos + n)]. *)
Definition slice (p : list Z) (pos n : Z) : list Z :=
  take (Z.to_nat n) (drop (Z.to_nat pos) p).

(** An engine whose every write fails, and the state of [loop] before its
    last write when nothing has been written: both images zero. *)
Definition failing_engine : bool -> Engine unit -> Z -> Z -> outcome (Engine unit) bool :=
  fun _ e _ _ => Returned false e.

Definition zero_image (storage_size : Z) : list Z := replicate (Z.to_nat storage_size) 0.

Definition fresh_test (storage_size : Z) (gate : bool) : FlashTest unit :=
  mkFlashTest (zero_image storage_size) (zero_image storage_size) erased_flash tt gate [].

(** ** Readings of the word checks *)

(** The conditions under which the loop body of [flash_write] panics on a
    data word [v] over a stored word [v2], read off lines 68 and 76: the
    stored word is zero and bit 0 of the data is set, or, when
    [AP_FLASHSTORAGE_MULTI_WRITE] is not defined, the two differ and neither
    is 0xFFFF. *)
Definition write16_refused (mw : bool) (v v2 : Z) : Prop :=
  (v2 = 0 /\ Z.odd v = true) \/
  (mw = false /\ v <> v2 /\ v <> 65535 /\ v2 <> 65535).

(** Word [k] of a request, on the data side and on the flash side. *)
Definition data_word (data : list Z) (k : Z) : option Z := le16toh_ptr data (k * 2).

Definition flash_word (fl : Flash) (sector offset k : Z) : option Z :=
  le16toh_ptr (flash_at fl sector) (offset + k * 2).

(** ** The test loop *)

(** The ways [loop] stops before it reports success: a panic inside a flash
    callback, reached through the engine, or one of its own five. *)
Inductive loop_panic : Type :=
| FlashPanic (p : panic)
| FailedFirstInit
| DataMismatchAt (i : Z)
| DataMismatchBeforeReinit
| FailedSecondInit
| DataMismatch.

(** The line [loop] itself prints on the standard output, after every line
    that [write] has printed. *)
Inductive loop_line : Type :=
| ReInit.

(** How a part of [loop] ends: control reaches its end, it stops in a
    panic, or it leaves an allocated buffer. *)
Inductive run (St : Type) : Type :=
| Reached (st : St)
| LoopPanicked (p : loop_panic) (st : St)
| LoopUndefined.

Arguments Reached {St} st.
Arguments LoopPanicked {St} p st.
Arguments LoopUndefined {St}.

Definition has_reached {St} (o : run St) : Prop :=
  match o with Reached _ => True | _ => False end.

(** One random request: [ofs], [data] and [length] of an iteration. *)
Record Request : Type := mkRequest {
  req_ofs : Z;
  req_data : list Z;
  req_length : Z
}.

(** The members of [FlashTest], the number of values drawn from the random
    generator so far, and the lines [loop] has printed. *)
Record LoopState (Storage : Type) : Type := mkLoopState {
  test : FlashTest Storage;
  draws : nat;
  printed : list loop_line
}.

Arguments mkLoopState {Storage} _ _ _.
Arguments test {Storage} _.
Arguments draws {Storage} _.
Arguments printed {Storage} _.

Definition to_uint16 (x : Z) : Z := x mod 65536.


Section Loop.
Context {Storage : Type}.

(** [sizeof(mem_buffer)], which is [AP_FlashStorage::storage_size]. *)
Variable storage_size : Z.

(** [get_random16()] of AP_Math, which is not part of the sources at hand:
    the value returned by the call number [n]. *)
Variable get_random16 : nat -> Z.

(** [AP_FlashStorage::init()] and [AP_FlashStorage::write()], as in
    [Section Harness]. *)
Variable storage_init : bool -> Engine Storage -> outcome (Engine Storage) bool.
Variable storage_write : bool -> Engine Storage -> Z -> Z -> outcome (Engine Storage) bool.

Definition with_erase_ok (t : FlashTest Storage) (b : bool) : FlashTest Storage :=
  mkFlashTest (mem_buffer t) (mem_mirror t) (flash t) (storage t) b (console t).


Definition with_buffer (t : FlashTest Storage) (b : list Z) : FlashTest Storage :=
  mkFlashTest b (mem_mirror t) (flash t) (storage t) (erase_ok t) (console t).

(** [memcmp(mem_buffer, mem_mirror, sizeof(mem_buffer)) != 0]. *)
Definition images_differ (t : FlashTest Storage) : bool :=
  negb (bool_decide (take (Z.to_nat storage_size) (mem_buffer t)
                     = take (Z.to_nat storage_size) (mem_mirror t))).

(** The call [storage.init()]. *)
Definition init_storage (t : FlashTest Storage) : outcome (FlashTest Storage) bool :=
  match storage_init (flash_erase_ok t) (engine_of t) with
  | Returned ok e => Returned ok (with_engine t e)
  | Panicked p e => Panicked p (with_engine t e)
  | Undefined => Undefined
  end.

(** The request an iteration draws, when [n] values have been drawn before:
    one value for [ofs], one for [length], then one for each byte of
    [data]. *)
Definition random_request (n : nat) : Request * nat :=
  let ofs := to_uint16 (get_random16 n mod storage_size) in
  let length := to_uint16 (Z.land (get_random16 (S n)) 31) in
  let length := to_uint16 (Z.min length (storage_size - ofs)) in
  let data := map (fun j => Z.land (get_random16 (S (S n) + j)) 255)
                  (seq 0 (Z.to_nat length)) in
  (mkRequest ofs data length, (S (S n) + Z.to_nat length)%nat).

(** The body of the loop of random writes, for the loop index [i]. *)
Definition loop_iteration (i : Z) (st : LoopState Storage) : run (LoopState Storage) :=
  let (rq, n') := random_request (draws st) in
  let t1 := with_erase_ok (test st) (i mod 1000 =? 0) in
  match write storage_write t1 (req_ofs rq) (req_data rq) (req_length rq) with
  | Returned _ t2 =>
    let st2 := mkLoopState t2 n' (printed st) in
    if erase_ok t2 then
      if images_differ t2 then LoopPanicked (DataMismatchAt i) st2
      else Reached st2
    else Reached st2
  | Panicked p t2 => LoopPanicked (FlashPanic p) (mkLoopState t2 n' (printed st))
  | Undefined => LoopUndefined
  end.

(** [n] iterations of the loop of random writes, from index [i]. *)
Fixpoint loop_writes (n : nat) (i : Z) (st : LoopState Storage) : run (LoopState Storage) :=
  match n with
  | O => Reached st
  | S n' =>
    match loop_iteration i st with
    | Reached st' => loop_writes n' (i + 1) st'
    | o => o
    end
  end.

(** The end of [loop], from the forced last write to the point where it
    starts printing [TEST PASSED] for ever. *)
Definition loop_finish (st : LoopState Storage) : run (LoopState Storage) :=
  let t1 := with_erase_ok (test st) true in
  match write storage_write t1 37 [42] 1 with
  | Returned _ t2 =>
    if images_differ t2 then
      LoopPanicked DataMismatchBeforeReinit (mkLoopState t2 (draws st) (printed st))
    else
      let lines := printed st ++ [ReInit] in
      match memset (mem_buffer t2) 0 storage_size with
      | Some zeroed =>
        match init_storage (with_buffer t2 zeroed) with
        | Returned ok t3 =>
          let st3 := mkLoopState t3 (draws st) lines in
          if negb ok then LoopPanicked FailedSecondInit st3
          else if images_differ t3 then LoopPanicked DataMismatch st3
          else Reached st3
        | Panicked p t3 => LoopPanicked (FlashPanic p) (mkLoopState t3 (draws st) lines)
        | Undefined => LoopUndefined
        end
      | None => LoopUndefined
      end
  | Panicked p t2 => LoopPanicked (FlashPanic p) (mkLoopState t2 (draws st) (printed st))
  | Undefined => LoopUndefined
  end.


End Loop.

(** The engine's [write] leaves the image [mem_buffer] as it found it. *)
Definition write_keeps_image {Storage}
    (storage_write : bool -> Engine Storage -> Z -> Z -> outcome (Engine Storage) bool) : Prop :=
  forall gate e offset length ok e',
    storage_write gate e offset length = Returned ok e' -> e_buffer e' = e_buffer e.

(** An engine that persists the image in its own memory: [write] saves the
    image, [init] loads what was saved. *)
Definition saving_write : bool -> Engine (list Z) -> Z -> Z -> outcome (Engine (list Z)) bool :=
  fun _ e _ _ => Returned true (mkEngine (e_buffer e) (e_buffer e) (e_flash e)).

Definition saving_init : bool -> Engine (list Z) -> outcome (Engine (list Z)) bool :=
  fun _ e => Returned true (mkEngine (e_storage e) (e_storage e) (e_flash e)).

(** The object before [loop] runs, with zeroed images, for the saving
    engine. *)
Definition saving_test (storage_size : Z) : FlashTest (list Z) :=
  mkFlashTest (zero_image storage_size) (zero_image storage_size) erased_flash
              (zero_image storage_size) false [].


(** * Properties *)

(** Closes a goal that a literal lies in the range of its C type. *)
Ltac in_range := unfold uint8_t, uint16_t, uint32_t; lia.

(** ** Buffers *)

Lemma flash_sector_size_eq : flash_sector_size = 32768.
Proof. reflexivity. Qed.

Lemma is_byte_spec x : is_byte x = true <-> 0 <= x < 256.
Proof. unfold is_byte. rewrite andb_true_iff, Z.leb_le, Z.ltb_lt. tauto. Qed.

Lemma bytes_Forall b : bytes b <-> Forall (fun x => 0 <= x < 256) b.
Proof.
  unfold bytes. induction b as [|x b IH]; cbn [forallb].
  - split; [constructor | done].
  - rewrite list.Forall_cons, <- IH, <- is_byte_spec.
    destruct (is_byte x), (forallb is_byte b); simpl; intuition congruence.
Qed.

Lemma byte_at_Some p i x :
  byte_at p i = Some x <-> 0 <= i /\ p !! Z.to_nat i = Some x.
Proof.
  unfold byte_at. destruct (Z.leb_spec 0 i); split; try tauto; try lia.
  - discriminate.
Qed.

Lemma byte_at_bounds p i x : byte_at p i = Some x -> 0 <= i < Z.of_nat (length p).
Proof.
  rewrite byte_at_Some. intros [H0 H]. apply lookup_lt_Some in H. lia.
Qed.

Lemma byte_at_inside p i : 0 <= i < Z.of_nat (length p) -> is_Some (byte_at p i).
Proof.
  intros H. unfold byte_at. destruct (Z.leb_spec 0 i); [|lia].
  apply lookup_lt_is_Some. lia.
Qed.

Lemma byte_at_None p i : byte_at p i = None <-> i < 0 \/ Z.of_nat (length p) <= i.
Proof.
  unfold byte_at. destruct (Z.leb_spec 0 i).
  - rewrite lookup_ge_None. lia.
  - split; [lia | done].
Qed.

Lemma byte_at_range p i x : bytes p -> byte_at p i = Some x -> 0 <= x < 256.
Proof.
  rewrite bytes_Forall, byte_at_Some. intros Hb [_ Hl].
  by apply (Forall_lookup_1 _ _ _ _ Hb Hl).
Qed.

Lemma set_byte_Some p i x p' :
  set_byte p i x = Some p' <->
  0 <= i < Z.of_nat (length p) /\ p' = <[Z.to_nat i := x]> p.
Proof.
  unfold set_byte.
  destruct (Z.leb_spec 0 i), (Z.ltb_spec i (Z.of_nat (length p))); simpl;
    split; try (intros [? ?]; lia); try discriminate.
  - intros [= <-]. split; [lia | done].
  - intros [_ ->]. done.
Qed.

Lemma set_byte_length p i x p' : set_byte p i x = Some p' -> length p' = length p.
Proof. rewrite set_byte_Some. intros [_ ->]. apply length_insert. Qed.

Lemma byte_at_set_byte p i x p' j :
  set_byte p i x = Some p' ->
  byte_at p' j = if j =? i then Some x else byte_at p j.
Proof.
  rewrite set_byte_Some. intros [Hi ->].
  destruct (Z.eqb_spec j i) as [-> | Hne].
  - apply byte_at_Some. split; [lia|]. apply list_lookup_insert_eq. lia.
  - unfold byte_at. destruct (0 <=? j) eqn:Hj; [|done].
    apply Z.leb_le in Hj. apply list_lookup_insert_ne. lia.
Qed.

Lemma set_byte_bytes p i x p' :
  bytes p -> 0 <= x < 256 -> set_byte p i x = Some p' -> bytes p'.
Proof.
  rewrite !bytes_Forall, set_byte_Some. intros Hb Hx [_ ->].
  by apply Forall_insert.
Qed.

(** ** 16-bit words *)

Lemma le16_join_range lo hi :
  0 <= lo < 256 -> 0 <= hi < 256 -> 0 <= Z.lor lo (Z.shiftl hi 8) < 65536.
Proof.
  intros Hlo Hhi.
  assert (Hl : Z.land lo (Z.shiftl hi 8) = 0).
  { apply Z.bits_inj'. intros n Hn. rewrite Z.land_spec, Z.bits_0.
    destruct (Z.lt_ge_cases n 8).
    - rewrite Z.shiftl_spec_low by lia. apply andb_false_r.
    - replace lo with (lo mod 2 ^ 8) by (apply Z.mod_small; lia).
      rewrite Z.mod_pow2_bits_high by lia. done. }
  rewrite <- Z.add_nocarry_lor by exact Hl.
  rewrite Z.shiftl_mul_pow2 by lia. change (2 ^ 8) with 256. lia.
Qed.

Lemma le16_split_join v :
  0 <= v < 65536 -> Z.lor (Z.land v 255) (Z.shiftl (Z.shiftr v 8 mod 256) 8) = v.
Proof.
  intros Hv. change 255 with (Z.ones 8). rewrite Z.land_ones by lia.
  rewrite Z.shiftr_div_pow2 by lia. change (2 ^ 8) with 256.
  assert (Hl : Z.land (v mod 256) (Z.shiftl (v / 256 mod 256) 8) = 0).
  { apply Z.bits_inj'. intros n Hn. rewrite Z.land_spec, Z.bits_0.
    destruct (Z.lt_ge_cases n 8).
    - rewrite Z.shiftl_spec_low by lia. apply andb_false_r.
    - change 256 with (2 ^ 8) at 1.
      rewrite Z.mod_pow2_bits_high by lia. done. }
  rewrite <- Z.add_nocarry_lor by exact Hl.
  rewrite Z.shiftl_mul_pow2 by lia. change (2 ^ 8) with 256.
  rewrite (Z.mod_small (v / 256)) by (split; [apply Z.div_pos; lia | apply Z.div_lt_upper_bound; lia]).
  pose proof (Z.div_mod v 256). lia.
Qed.

Lemma land_range v2 v : 0 <= v2 < 65536 -> 0 <= Z.land v2 v < 65536.
Proof.
  intros H. split.
  - apply Z.land_nonneg. lia.
  - assert (Z.land v2 v <= v2); [|lia].
    rewrite <- (Z.lor_ldiff_and v2 v) at 2.
    rewrite <- Z.add_nocarry_lor.
    + assert (0 <= Z.ldiff v2 v) by (apply Z.ldiff_nonneg; lia). lia.
    + apply Z.bits_inj'. intros n Hn.
      rewrite Z.land_spec, Z.ldiff_spec, Z.land_spec, Z.bits_0.
      destruct (Z.testbit v2 n), (Z.testbit v n); done.
Qed.

Lemma le16toh_ptr_Some p pos v :
  le16toh_ptr p pos = Some v <->
  exists lo hi, byte_at p pos = Some lo /\ byte_at p (pos + 1) = Some hi /\
                v = Z.lor lo (Z.shiftl hi 8).
Proof.
  unfold le16toh_ptr.
  destruct (byte_at p pos) as [lo|], (byte_at p (pos + 1)) as [hi|]; split;
    try discriminate; try (intros (? & ? & ? & ? & ?); discriminate).
  - intros [= <-]. eauto.
  - intros (? & ? & [= <-] & [= <-] & ->). done.
Qed.

Lemma le16toh_ptr_bounds p pos v :
  le16toh_ptr p pos = Some v -> 0 <= pos /\ pos + 1 < Z.of_nat (length p).
Proof.
  rewrite le16toh_ptr_Some. intros (lo & hi & Hlo & Hhi & _).
  apply byte_at_bounds in Hlo, Hhi. lia.
Qed.

Lemma le16toh_ptr_inside p pos :
  0 <= pos -> pos + 1 < Z.of_nat (length p) -> is_Some (le16toh_ptr p pos).
Proof.
  intros H0 H1. unfold le16toh_ptr.
  destruct (byte_at_inside p pos) as [lo ->]; [lia|].
  destruct (byte_at_inside p (pos + 1)) as [hi ->]; [lia|]. eauto.
Qed.

Lemma le16toh_ptr_None p pos :
  le16toh_ptr p pos = None -> pos < 0 \/ Z.of_nat (length p) <= pos + 1.
Proof.
  intros H. destruct (Z.lt_ge_cases pos 0); [lia|].
  destruct (Z.lt_ge_cases (pos + 1) (Z.of_nat (length p))); [|lia].
  destruct (le16toh_ptr_inside p pos) as [v Hv]; [lia..|]. congruence.
Qed.

Lemma le16toh_ptr_range p pos v :
  bytes p -> le16toh_ptr p pos = Some v -> 0 <= v < 65536.
Proof.
  intros Hb. rewrite le16toh_ptr_Some. intros (lo & hi & Hlo & Hhi & ->).
  apply le16_join_range; eapply byte_at_range; eauto.
Qed.

Lemma put_le16_ptr_Some p pos v p' :
  put_le16_ptr p pos v = Some p' <->
  0 <= pos /\ pos + 1 < Z.of_nat (length p) /\
  p' = <[Z.to_nat (pos + 1) := Z.shiftr v 8 mod 256]> (<[Z.to_nat pos := Z.land v 255]> p).
Proof.
  unfold put_le16_ptr. destruct (set_byte p pos (Z.land v 255)) as [q|] eqn:Hq.
  - apply set_byte_Some in Hq as [Hpos ->]. rewrite set_byte_Some, length_insert.
    split; [intros [? ->]; split_and!; [lia..|done] | intros (? & ? & ->); split; [lia|done]].
  - split; [discriminate|]. intros (H0 & H1 & _).
    assert (is_Some (set_byte p pos (Z.land v 255))) as [? ?]; [|congruence].
    eexists. apply set_byte_Some. split; [lia|done].
Qed.

Lemma put_le16_ptr_inside p pos v :
  0 <= pos -> pos + 1 < Z.of_nat (length p) -> is_Some (put_le16_ptr p pos v).
Proof. intros. eexists. apply put_le16_ptr_Some. eauto. Qed.

Lemma put_le16_ptr_length p pos v p' :
  put_le16_ptr p pos v = Some p' -> length p' = length p.
Proof. rewrite put_le16_ptr_Some. intros (_ & _ & ->). by rewrite !length_insert. Qed.

Lemma byte_at_put_le16 p pos v p' j :
  put_le16_ptr p pos v = Some p' ->
  byte_at p' j =
    if j =? pos then Some (Z.land v 255)
    else if j =? pos + 1 then Some (Z.shiftr v 8 mod 256)
    else byte_at p j.
Proof.
  unfold put_le16_ptr. destruct (set_byte p pos (Z.land v 255)) as [q|] eqn:Hq; [|done].
  intros Hp'. rewrite (byte_at_set_byte _ _ _ _ j Hp'), (byte_at_set_byte _ _ _ _ j Hq).
  destruct (Z.eqb_spec j (pos + 1)), (Z.eqb_spec j pos); try done; lia.
Qed.

Lemma byte_at_put_le16_other p pos v p' j :
  put_le16_ptr p pos v = Some p' -> j < pos \/ pos + 2 <= j ->
  byte_at p' j = byte_at p j.
Proof.
  intros Hp Hj. rewrite (byte_at_put_le16 _ _ _ _ j Hp).
  destruct (Z.eqb_spec j pos), (Z.eqb_spec j (pos + 1)); try done; lia.
Qed.

Lemma le16toh_put_le16 p pos v p' :
  put_le16_ptr p pos v = Some p' -> 0 <= v < 65536 -> le16toh_ptr p' pos = Some v.
Proof.
  intros Hp Hv. unfold le16toh_ptr.
  rewrite (byte_at_put_le16 _ _ _ _ pos Hp), (byte_at_put_le16 _ _ _ _ (pos + 1) Hp).
  rewrite Z.eqb_refl. destruct (Z.eqb_spec (pos + 1) pos); [lia|].
  rewrite Z.eqb_refl. by rewrite le16_split_join.
Qed.

Lemma le16toh_put_le16_other p pos v p' q :
  put_le16_ptr p pos v = Some p' -> q + 2 <= pos \/ pos + 2 <= q ->
  le16toh_ptr p' q = le16toh_ptr p q.
Proof.
  intros Hp Hq. unfold le16toh_ptr.
  by rewrite !(byte_at_put_le16_other _ _ _ _ _ Hp) by lia.
Qed.

Lemma put_le16_ptr_bytes p pos v p' :
  bytes p -> put_le16_ptr p pos v = Some p' -> bytes p'.
Proof.
  unfold put_le16_ptr. destruct (set_byte p pos (Z.land v 255)) as [q|] eqn:Hq; [|done].
  intros Hb Hp'. eapply set_byte_bytes; [| |exact Hp'].
  - eapply set_byte_bytes; [exact Hb| |exact Hq].
    change 255 with (Z.ones 8). rewrite Z.land_ones by lia. apply Z.mod_pos_bound. lia.
  - apply Z.mod_pos_bound. lia.
Qed.

(** ** The write loop *)

Section WriteLoopSpec.
Variables (mw : bool) (sector offset : Z) (data : list Z).

Lemma write16_loop_step n i buf :
  write16_loop mw sector offset data (S n) i buf =
  match le16toh_ptr data (i * 2), le16toh_ptr buf (offset + i * 2) with
  | Some v, Some v2 =>
    if word_rejected mw v v2 then
      Panicked (FatalInvalidWrite16 sector (add32 offset i)
                  (default 0 (byte_at buf (offset + i)))
                  (default 0 (byte_at data i))) buf
    else
      match put_le16_ptr buf (offset + i * 2) (Z.land v2 v) with
      | Some buf' => write16_loop mw sector offset data n (i + 1) buf'
      | None => Undefined
      end
  | _, _ => Undefined
  end.
Proof.
  cbn [write16_loop]. unfold word_rejected.
  destruct (le16toh_ptr data (i * 2)) as [v|]; [|done].
  destruct (le16toh_ptr buf (offset + i * 2)) as [v2|]; [|done].
  destruct (negb (Z.land v (lnot_int v2) =? 0)); [done|].
  by destruct (negb mw && rewrite_check v v2).
Qed.

Lemma write16_loop_post n : forall i buf,
  0 <= i -> bytes buf ->
  loop_post mw sector offset data n i buf (write16_loop mw sector offset data n i buf).
Proof.
  induction n as [|n IH]; intros i buf Hi Hb.
  - cbn. split_and!; try done; intros; lia.
  - rewrite write16_loop_step.
    destruct (le16toh_ptr data (i * 2)) as [v|] eqn:Hv;
      [|exists i; split_and!; [lia..|by left|intros; lia]].
    destruct (le16toh_ptr buf (offset + i * 2)) as [v2|] eqn:Hv2;
      [|exists i; split_and!; [lia..|by right|intros; lia]].
    destruct (word_rejected mw v v2) eqn:Hrej.
    { exists i, v, v2. do 2 eexists. split_and!; try done; try lia; intros; lia. }
    pose proof (le16toh_ptr_bounds _ _ _ Hv2) as [Hlo Hhi].
    destruct (put_le16_ptr_inside buf (offset + i * 2) (Z.land v2 v)) as [buf1 Hput];
      [lia..|]. rewrite Hput.
    assert (Hb1 : bytes buf1) by (eapply put_le16_ptr_bytes; eauto).
    assert (Hlen1 : length buf1 = length buf) by (eapply put_le16_ptr_length; eauto).
    assert (Hrange : 0 <= Z.land v2 v < 65536)
      by (apply land_range, (le16toh_ptr_range buf (offset + i * 2)); done).
    assert (Hnew : le16toh_ptr buf1 (offset + i * 2) = Some (Z.land v2 v))
      by (eapply le16toh_put_le16; eauto).
    assert (Hold : forall k, i + 1 <= k ->
              le16toh_ptr buf1 (offset + k * 2) = le16toh_ptr buf (offset + k * 2)).
    { intros k Hk. eapply le16toh_put_le16_other; [exact Hput|]. lia. }
    specialize (IH (i + 1) buf1 ltac:(lia) Hb1).
    destruct (write16_loop mw sector offset data n (i + 1) buf1) as [r buf'|p buf'|];
      cbn [loop_post] in IH |- *.
    + destruct IH as (Hr & Hlen & Hb' & Hw & Hfar). split_and!; try done; try congruence.
      * intros k Hk. destruct (Z.eq_dec k i) as [-> | Hne].
        -- exists v, v2. split_and!; try done.
           unfold le16toh_ptr. rewrite !Hfar by lia. exact Hnew.
        -- destruct (Hw k ltac:(lia)) as (w & w2 & Hw1 & Hw2 & Hw3 & Hw4).
           exists w, w2. rewrite <- Hold by lia. done.
      * intros j Hj. rewrite Hfar by lia.
        eapply byte_at_put_le16_other; [exact Hput|]. lia.
    + destruct IH as (k & w & w2 & bi & di & Hk & Hp & Hw1 & Hw2 & Hw3 & Hlen & Hb' & Hw & Hfar).
      exists k, w, w2, bi, di. split_and!; try done; try lia; try congruence.
      * rewrite <- Hold by lia. done.
      * intros k' Hk'. destruct (Z.eq_dec k' i) as [-> | Hne].
        -- exists v, v2. split_and!; try done.
           unfold le16toh_ptr. rewrite !Hfar by lia. exact Hnew.
        -- destruct (Hw k' ltac:(lia)) as (u & u2 & Hu1 & Hu2 & Hu3 & Hu4).
           exists u, u2. rewrite <- Hold by lia. done.
      * intros j Hj. rewrite Hfar by lia.
        eapply byte_at_put_le16_other; [exact Hput|]. lia.
    + destruct IH as (k & Hk & Hnone & Hacc). exists k. split_and!; [lia..| |].
      * rewrite <- Hold by lia. done.
      * intros k' Hk'. destruct (Z.eq_dec k' i) as [-> | Hne].
        -- by exists v, v2.
        -- destruct (Hacc k' ltac:(lia)) as (u & u2 & Hu1 & Hu2 & Hu3).
           exists u, u2. rewrite <- Hold by lia. done.
Qed.
End WriteLoopSpec.

(** ** Sectors *)

Lemma flash_at_with fl sector b : flash_at (flash_with fl sector b) sector = b.
Proof. unfold flash_at, flash_with. by destruct (sector =? 0). Qed.

Lemma flash_at_with_other fl sector b s :
  0 <= sector <= 1 -> 0 <= s <= 1 -> s <> sector ->
  flash_at (flash_with fl sector b) s = flash_at fl s.
Proof.
  intros Hs Hs' Hne. unfold flash_at, flash_with.
  destruct (Z.eqb_spec sector 0), (Z.eqb_spec s 0); try done; lia.
Qed.

Lemma wf_flash_at fl sector : wf_flash fl -> wf_sector (flash_at fl sector).
Proof. intros [H0 H1]. unfold flash_at. by destruct (sector =? 0). Qed.

Lemma wf_flash_with fl sector b : wf_flash fl -> wf_sector b -> wf_flash (flash_with fl sector b).
Proof.
  intros [H0 H1] Hb. unfold flash_with. by destruct (sector =? 0); split.
Qed.

Lemma bytes_replicate n x : 0 <= x < 256 -> bytes (replicate n x).
Proof. intros Hx. apply bytes_Forall, Forall_replicate. exact Hx. Qed.

Lemma wf_erased_sector : wf_sector erased_sector.
Proof.
  split.
  - unfold erased_sector. rewrite length_replicate. rewrite flash_sector_size_eq. lia.
  - apply bytes_replicate. lia.
Qed.

Lemma wf_erased_flash : wf_flash erased_flash.
Proof. split; apply wf_erased_sector. Qed.

Lemma land_1_even x : (Z.land x 1 =? 0) = Z.even x.
Proof.
  change 1 with (Z.ones 1) at 1. rewrite Z.land_ones by lia.
  change (2 ^ 1) with 2. rewrite <- Z.bit0_mod, Z.bit0_odd, <- Z.negb_odd.
  by destruct (Z.odd x).
Qed.

Lemma even_double_half x : Z.even x = true -> x / 2 * 2 = x.
Proof.
  intros H. apply Z.even_spec in H as [y ->].
  rewrite (Z.mul_comm 2 y), Z.div_mul by lia. done.
Qed.

(** ** [flash_erase] *)

Lemma flash_erase_inside fl sector :
  wf_flash fl -> sector <= 1 ->
  flash_erase fl sector = Returned true (flash_with fl sector erased_sector).
Proof.
  intros Hwf Hs. unfold flash_erase.
  destruct (Z.gtb_spec sector 1); [lia|].
  destruct (wf_flash_at fl sector Hwf) as [Hlen _].
  unfold memset. rewrite Hlen, Z.leb_refl.
  replace (0 <=? flash_sector_size) with true by (rewrite flash_sector_size_eq; done).
  cbn [andb]. rewrite drop_ge by lia. by rewrite app_nil_r.
Qed.

Lemma loop_erase_both_erased fl :
  wf_flash fl -> loop_erase_both fl = Returned true erased_flash.
Proof.
  intros Hwf. unfold loop_erase_both.
  rewrite flash_erase_inside by (exact Hwf || lia).
  rewrite flash_erase_inside; [reflexivity| |lia].
  apply wf_flash_with; [exact Hwf|apply wf_erased_sector].
Qed.

(** C6: for a sector in {0,1} of an allocated flash, [flash_erase] returns
    true and leaves that sector as [flash_sector_size] bytes that are all
    0xFF, the other sector as it was; for [sector > 1] it stops in a panic. *)
Theorem flash_erase_resets_sector fl sector :
  wf_flash fl ->
  (0 <= sector <= 1 ->
   exists fl',
     flash_erase fl sector = Returned true fl' /\
     flash_at fl' sector = replicate (Z.to_nat flash_sector_size) 255 /\
     Z.of_nat (length (flash_at fl' sector)) = flash_sector_size /\
     (forall j, 0 <= j < flash_sector_size -> byte_at (flash_at fl' sector) j = Some 255) /\
     (forall s, 0 <= s <= 1 -> s <> sector -> flash_at fl' s = flash_at fl s)) /\
  (sector > 1 -> flash_erase fl sector = Panicked (FatalEraseSector sector) fl).
Proof.
  intros Hwf. split.
  - intros Hs. exists (flash_with fl sector erased_sector).
    rewrite flash_erase_inside, flash_at_with by (exact Hwf || lia).
    split; [reflexivity|]. split; [reflexivity|]. split; [apply wf_erased_sector|]. split.
    + intros j Hj. apply byte_at_Some. split; [lia|].
      unfold erased_sector. apply lookup_replicate_2. lia.
    + intros s Hs' Hne. by apply flash_at_with_other.
  - intros Hs. unfold flash_erase. by destruct (Z.gtb_spec sector 1); [|lia].
Qed.

Lemma flash_erase_resets_sector_witness :
  wf_flash erased_flash /\
  exists fl',
    flash_erase erased_flash 1 = Returned true fl' /\
    flash_at fl' 1 = replicate (Z.to_nat flash_sector_size) 255 /\
    Z.of_nat (length (flash_at fl' 1)) = flash_sector_size /\
    (forall j, 0 <= j < flash_sector_size -> byte_at (flash_at fl' 1) j = Some 255) /\
    (forall s, 0 <= s <= 1 -> s <> 1 -> flash_at fl' s = flash_at erased_flash s).
Proof.
  split; [exact wf_erased_flash|].
  apply (flash_erase_resets_sector erased_flash 1 wf_erased_flash). lia.
Defined.

(** ** [flash_write] *)

Lemma flash_write_checked mw fl sector offset data length :
  sector <= 1 -> add32 offset length <= flash_sector_size ->
  Z.even offset = true -> Z.even length = true ->
  flash_write mw fl sector offset data length =
  outcome_map (flash_with fl sector)
    (write16_loop mw sector offset data (Z.to_nat (length / 2)) 0 (flash_at fl sector)).
Proof.
  intros Hs Hr Ho Hl. unfold flash_write.
  destruct (Z.gtb_spec sector 1); [lia|].
  destruct (Z.gtb_spec (add32 offset length) flash_sector_size); [lia|].
  by rewrite !land_1_even, Ho, Hl.
Qed.

(** A call that gets past the three guards has their negations. *)
Lemma flash_write_guards mw fl sector offset data length :
  (forall p st, flash_write mw fl sector offset data length = Panicked p st ->
                match p with FatalInvalidWrite16 _ _ _ _ => True | _ => False end) ->
  sector <= 1 /\ add32 offset length <= flash_sector_size /\
  Z.even offset = true /\ Z.even length = true.
Proof.
  unfold flash_write. intros H.
  destruct (Z.gtb_spec sector 1); [by destruct (H _ _ eq_refl)|].
  destruct (Z.gtb_spec (add32 offset length) flash_sector_size);
    [by destruct (H _ _ eq_refl)|].
  rewrite !land_1_even in H.
  destruct (Z.even offset); [|by destruct (H _ _ eq_refl)].
  destruct (Z.even length); [|by destruct (H _ _ eq_refl)].
  split_and!; done || lia.
Qed.

Lemma flash_write_returned mw fl sector offset data length r fl' :
  flash_write mw fl sector offset data length = Returned r fl' ->
  sector <= 1 /\ add32 offset length <= flash_sector_size /\
  Z.even offset = true /\ Z.even length = true /\
  exists buf',
    write16_loop mw sector offset data (Z.to_nat (length / 2)) 0 (flash_at fl sector)
      = Returned r buf' /\
    fl' = flash_with fl sector buf'.
Proof.
  intros H.
  destruct (flash_write_guards mw fl sector offset data length) as (Hs & Hr & Ho & Hl).
  { intros p st Hp. congruence. }
  split_and!; try done.
  rewrite flash_write_checked in H by done.
  destruct (write16_loop _ _ _ _ _ _ _) as [r0 buf'| |]; try discriminate.
  injection H as <- <-. by exists buf'.
Qed.

Lemma flash_write_panicked16 mw fl sector offset data length s pos bi di fl' :
  flash_write mw fl sector offset data length
    = Panicked (FatalInvalidWrite16 s pos bi di) fl' ->
  sector <= 1 /\ add32 offset length <= flash_sector_size /\
  Z.even offset = true /\ Z.even length = true /\
  exists buf',
    write16_loop mw sector offset data (Z.to_nat (length / 2)) 0 (flash_at fl sector)
      = Panicked (FatalInvalidWrite16 s pos bi di) buf' /\
    fl' = flash_with fl sector buf'.
Proof.
  intros H.
  destruct (flash_write_guards mw fl sector offset data length) as (Hs & Hr & Ho & Hl).
  { intros p st Hp. rewrite H in Hp. by injection Hp as <- _. }
  split_and!; try done.
  rewrite flash_write_checked in H by done.
  destruct (write16_loop _ _ _ _ _ _ _) as [|p buf'|]; try discriminate.
  injection H as -> <-. by exists buf'.
Qed.

Lemma word_written_inj mw offset data buf buf' k v v2 :
  word_written mw offset data buf buf' k ->
  le16toh_ptr data (k * 2) = Some v ->
  le16toh_ptr buf (offset + k * 2) = Some v2 ->
  word_rejected mw v v2 = false /\ le16toh_ptr buf' (offset + k * 2) = Some (Z.land v2 v).
Proof. intros (w & w2 & H1 & H2 & H3 & H4) Hv Hv2. by simplify_eq. Qed.

(** C4: a [flash_write] that returns has stored, in each 16-bit word of the
    written range, the bitwise AND of the word's previous content and the
    data word, so every bit set afterwards was set before; bytes of the
    sector outside the range and the other sector are unchanged. *)
Theorem flash_write_only_clears_bits mw fl sector offset data length r fl' :
  wf_flash fl -> uint8_t sector -> uint32_t offset -> uint16_t length ->
  flash_write mw fl sector offset data length = Returned r fl' ->
  (forall k, 0 <= k < length / 2 ->
     exists v v2 w,
       le16toh_ptr data (k * 2) = Some v /\
       le16toh_ptr (flash_at fl sector) (offset + k * 2) = Some v2 /\
       le16toh_ptr (flash_at fl' sector) (offset + k * 2) = Some w /\
       w = Z.land v2 v /\
       (forall n, Z.testbit w n = true -> Z.testbit v2 n = true)) /\
  (forall j, j < offset \/ offset + length <= j ->
     byte_at (flash_at fl' sector) j = byte_at (flash_at fl sector) j) /\
  (forall s, 0 <= s <= 1 -> s <> sector -> flash_at fl' s = flash_at fl s) /\
  wf_flash fl'.
Proof.
  intros Hwf [Hs0 _] [Ho0 _] [Hl0 _] H.
  apply flash_write_returned in H as (Hs & Hr & Ho & Hl & buf' & Hloop & ->).
  destruct (wf_flash_at fl sector Hwf) as [Hlen Hb].
  pose proof (write16_loop_post mw sector offset data
                (Z.to_nat (length / 2)) 0 (flash_at fl sector) ltac:(lia) Hb) as Hpost.
  rewrite Hloop in Hpost. destruct Hpost as (_ & Hlen' & Hb' & Hw & Hfar).
  assert (Hhalf : 0 <= length / 2) by (apply Z.div_pos; lia).
  rewrite flash_at_with. split_and!.
  - intros k Hk. destruct (Hw k ltac:(lia)) as (v & v2 & Hv & Hv2 & _ & Hnew).
    exists v, v2, (Z.land v2 v). split_and!; try done.
    intros n. rewrite Z.land_spec. by intros [? _]%andb_prop.
  - intros j Hj. apply Hfar. rewrite Z2Nat.id by lia.
    rewrite Z.add_0_l, even_double_half by done. lia.
  - intros s Hs' Hne. apply flash_at_with_other; [lia..|done].
  - apply wf_flash_with; [done|]. split; [lia|done].
Qed.

Lemma flash_write_only_clears_bits_witness :
  exists r fl',
    flash_write false erased_flash 0 8 [52; 18; 0; 240] 4 = Returned r fl' /\
    (forall k, 0 <= k < 4 / 2 ->
       exists v v2 w,
         le16toh_ptr [52; 18; 0; 240] (k * 2) = Some v /\
         le16toh_ptr (flash_at erased_flash 0) (8 + k * 2) = Some v2 /\
         le16toh_ptr (flash_at fl' 0) (8 + k * 2) = Some w /\
         w = Z.land v2 v /\
         (forall n, Z.testbit w n = true -> Z.testbit v2 n = true)) /\
    (forall j, j < 8 \/ 8 + 4 <= j ->
       byte_at (flash_at fl' 0) j = byte_at (flash_at erased_flash 0) j) /\
    (forall s, 0 <= s <= 1 -> s <> 0 -> flash_at fl' s = flash_at erased_flash s) /\
    wf_flash fl'.
Proof.
  destruct (flash_write false erased_flash 0 8 [52; 18; 0; 240] 4) as [r fl'|p fl'|] eqn:E.
  - exists r, fl'. split; [reflexivity|].
    apply (flash_write_only_clears_bits false erased_flash 0 8 [52; 18; 0; 240] 4 r fl').
    + exact wf_erased_flash.
    + in_range.
    + in_range.
    + in_range.
    + exact E.
  - exfalso. assert (H : is_returned (flash_write false erased_flash 0 8 [52; 18; 0; 240] 4))
      by (vm_compute; exact I).
    rewrite E in H. exact H.
  - exfalso. assert (H : is_returned (flash_write false erased_flash 0 8 [52; 18; 0; 240] 4))
      by (vm_compute; exact I).
    rewrite E in H. exact H.
Defined.

(** ** Writing to erased words, and reading back *)

Lemma add32_small a b : 0 <= a + b < 4294967296 -> add32 a b = a + b.
Proof. intros H. unfold add32. by apply Z.mod_small. Qed.

Lemma le16_join_add lo hi :
  0 <= lo < 256 -> 0 <= hi -> Z.lor lo (Z.shiftl hi 8) = lo + hi * 256.
Proof.
  intros Hlo Hhi.
  assert (Hl : Z.land lo (Z.shiftl hi 8) = 0).
  { apply Z.bits_inj'. intros n Hn. rewrite Z.land_spec, Z.bits_0.
    destruct (Z.lt_ge_cases n 8).
    - rewrite Z.shiftl_spec_low by lia. apply andb_false_r.
    - replace lo with (lo mod 2 ^ 8) by (apply Z.mod_small; lia).
      rewrite Z.mod_pow2_bits_high by lia. done. }
  rewrite <- Z.add_nocarry_lor by exact Hl.
  rewrite Z.shiftl_mul_pow2 by lia. done.
Qed.

Lemma le16toh_ptr_inj a p b q v :
  bytes a -> bytes b ->
  le16toh_ptr a p = Some v -> le16toh_ptr b q = Some v ->
  byte_at a p = byte_at b q /\ byte_at a (p + 1) = byte_at b (q + 1).
Proof.
  intros Ha Hb.
  rewrite !le16toh_ptr_Some.
  intros (lo & hi & Hlo & Hhi & ->) (lo' & hi' & Hlo' & Hhi' & Heq).
  pose proof (byte_at_range _ _ _ Ha Hlo). pose proof (byte_at_range _ _ _ Ha Hhi).
  pose proof (byte_at_range _ _ _ Hb Hlo'). pose proof (byte_at_range _ _ _ Hb Hhi').
  rewrite !le16_join_add in Heq by lia.
  assert (lo = lo') by lia. assert (hi = hi') by lia. subst.
  by rewrite Hlo, Hhi, Hlo', Hhi'.
Qed.

Lemma land_65535 v : 0 <= v < 65536 -> Z.land 65535 v = v.
Proof.
  intros Hv. rewrite Z.land_comm. change 65535 with (Z.ones 16).
  rewrite Z.land_ones by lia. apply Z.mod_small. change (2 ^ 16) with 65536. lia.
Qed.

Lemma word_rejected_erased mw v : word_rejected mw v 65535 = false.
Proof.
  unfold word_rejected, rewrite_check, lnot_int. rewrite Z.eqb_refl.
  change (65535 =? 0) with false. cbv iota. rewrite Z.land_0_r.
  cbn [Z.eqb negb orb]. by rewrite !andb_false_r.
Qed.

Lemma byte_at_erased_sector j :
  0 <= j < flash_sector_size -> byte_at erased_sector j = Some 255.
Proof.
  intros Hj. apply byte_at_Some. split; [lia|].
  unfold erased_sector. apply lookup_replicate_2. lia.
Qed.

Lemma le16toh_ptr_erased_sector q :
  0 <= q -> q + 1 < flash_sector_size -> le16toh_ptr erased_sector q = Some 65535.
Proof.
  intros H0 H1. unfold le16toh_ptr. by rewrite !byte_at_erased_sector by lia.
Qed.

(** The loop returns when every word of the request is accepted. *)
Lemma write16_loop_accepted mw sector offset data n i buf :
  0 <= i -> bytes buf ->
  (forall k, i <= k < i + Z.of_nat n -> word_accepted mw offset data buf k) ->
  exists buf', write16_loop mw sector offset data n i buf = Returned true buf'.
Proof.
  intros Hi Hb Hacc.
  pose proof (write16_loop_post mw sector offset data n i buf Hi Hb) as Hpost.
  destruct (write16_loop mw sector offset data n i buf) as [r buf'|p buf'|];
    cbn [loop_post] in Hpost.
  - destruct Hpost as (-> & _). by exists buf'.
  - destruct Hpost as (k & v & v2 & bi & di & Hk & _ & Hv & Hv2 & Hrej & _).
    destruct (Hacc k Hk) as (w & w2 & Hw & Hw2 & Hok). congruence.
  - destruct Hpost as (k & Hk & Hnone & _).
    destruct (Hacc k Hk) as (w & w2 & Hw & Hw2 & Hok).
    destruct Hnone; congruence.
Qed.

Lemma flash_read_inside fl sector offset length :
  wf_flash fl -> sector <= 1 -> 0 <= offset -> 0 <= length ->
  offset + length <= flash_sector_size ->
  flash_read fl sector offset length =
  Returned (true, take (Z.to_nat length) (drop (Z.to_nat offset) (flash_at fl sector))) fl.
Proof.
  intros Hwf Hs Ho Hl Hr. unfold flash_read.
  destruct (Z.gtb_spec sector 1); [lia|].
  rewrite add32_small by (rewrite flash_sector_size_eq in Hr; lia).
  destruct (Z.gtb_spec (offset + length) flash_sector_size); [lia|].
  destruct (wf_flash_at fl sector Hwf) as [Hlen _]. rewrite Hlen.
  destruct (Z.leb_spec 0 offset); [|lia]. destruct (Z.leb_spec 0 length); [|lia].
  by destruct (Z.leb_spec (offset + length) flash_sector_size); [|lia].
Qed.

(** The bytes read back from a range are the data when each word of the
    range holds the data word. *)
Lemma read_back_words buf offset data length :
  bytes buf -> bytes data -> 0 <= offset -> Z.even length = true ->
  Z.of_nat (List.length data) = length ->
  (forall k, 0 <= k < length / 2 ->
     exists v, le16toh_ptr data (k * 2) = Some v /\
               le16toh_ptr buf (offset + k * 2) = Some v) ->
  take (Z.to_nat length) (drop (Z.to_nat offset) buf) = data.
Proof.
  intros Hb Hd Ho He Hlen Hw. apply list_eq. intros j.
  destruct (decide (j < Z.to_nat length)%nat) as [Hj | Hj].
  - rewrite lookup_take_lt, lookup_drop by done.
    pose proof (even_double_half _ He) as Hhalf.
    set (k := Z.of_nat j / 2).
    assert (Hk : 0 <= k < length / 2).
    { subst k. split; [apply Z.div_pos; lia|]. apply Z.div_lt_upper_bound; lia. }
    destruct (Hw k Hk) as (v & Hv & Hv').
    destruct (le16toh_ptr_inj _ _ _ _ _ Hb Hd Hv' Hv) as [Hlo Hhi].
    pose proof (Z.div_mod (Z.of_nat j) 2 ltac:(lia)) as Hdm.
    pose proof (Z.mod_pos_bound (Z.of_nat j) 2 ltac:(lia)) as Hm.
    fold k in Hdm.
    destruct (Z.eq_dec (Z.of_nat j mod 2) 0) as [H0 | H1].
    + unfold byte_at in Hlo.
      destruct (Z.leb_spec 0 (offset + k * 2)); [|lia].
      destruct (Z.leb_spec 0 (k * 2)); [|lia].
      replace (Z.to_nat (offset + k * 2)) with (Z.to_nat offset + j)%nat in Hlo by lia.
      replace (Z.to_nat (k * 2)) with j in Hlo by lia. exact Hlo.
    + unfold byte_at in Hhi.
      destruct (Z.leb_spec 0 (offset + k * 2 + 1)); [|lia].
      destruct (Z.leb_spec 0 (k * 2 + 1)); [|lia].
      replace (Z.to_nat (offset + k * 2 + 1)) with (Z.to_nat offset + j)%nat in Hhi by lia.
      replace (Z.to_nat (k * 2 + 1)) with j in Hhi by lia. exact Hhi.
  - rewrite lookup_take_ge by lia. symmetry. apply lookup_ge_None. lia.
Qed.

(** C7: on any allocated flash, for a sector in {0,1}, an even offset and an
    even length inside the sector and [length] bytes of data,
    [flash_erase], then [flash_write], then [flash_read] of the same range
    all return true and the bytes read are exactly the data. *)
Theorem erase_write_read_roundtrip mw fl sector offset data length :
  wf_flash fl -> 0 <= sector <= 1 -> 0 <= offset -> 0 <= length ->
  offset + length <= flash_sector_size ->
  Z.even offset = true -> Z.even length = true ->
  Z.of_nat (List.length data) = length -> bytes data ->
  exists fl1 fl2,
    flash_erase fl sector = Returned true fl1 /\
    flash_write mw fl1 sector offset data length = Returned true fl2 /\
    flash_read fl2 sector offset length = Returned (true, data) fl2.
Proof.
  intros Hwf Hs Ho Hl Hr Heo Hel Hlen Hd.
  pose proof (even_double_half _ Hel) as Hhalf.
  assert (Hhalf0 : 0 <= length / 2) by (apply Z.div_pos; lia).
  set (fl1 := flash_with fl sector erased_sector).
  assert (Hwf1 : wf_flash fl1) by (apply wf_flash_with; [done|apply wf_erased_sector]).
  assert (Hat1 : flash_at fl1 sector = erased_sector) by apply flash_at_with.
  assert (Hacc : forall k, 0 <= k < 0 + Z.of_nat (Z.to_nat (length / 2)) ->
                  word_accepted mw offset data erased_sector k).
  { intros k Hk.
    destruct (le16toh_ptr_inside data (k * 2)) as [v Hv]; [lia..|].
    exists v, 65535. split_and!; [done| |apply word_rejected_erased].
    apply le16toh_ptr_erased_sector; lia. }
  destruct (write16_loop_accepted mw sector offset data _ 0 erased_sector
              ltac:(lia) (proj2 wf_erased_sector) Hacc) as [buf' Hloop].
  pose proof (write16_loop_post mw sector offset data (Z.to_nat (length / 2)) 0
                erased_sector ltac:(lia) (proj2 wf_erased_sector)) as Hpost.
  rewrite Hloop in Hpost. destruct Hpost as (_ & Hlen' & Hb' & Hw & _).
  set (fl2 := flash_with fl1 sector buf').
  assert (Hwf2 : wf_flash fl2).
  { apply wf_flash_with; [done|]. split; [|done].
    rewrite Hlen'. apply wf_erased_sector. }
  exists fl1, fl2. split_and!.
  - apply flash_erase_inside; [done|lia].
  - rewrite flash_write_checked; [| lia | | done | done].
    + by rewrite Hat1, Hloop.
    + rewrite add32_small by (rewrite flash_sector_size_eq in Hr; lia). done.
  - rewrite flash_read_inside by (done || lia).
    unfold fl2 at 1. rewrite flash_at_with.
    f_equal. f_equal. apply read_back_words; try done.
    intros k Hk. destruct (Hw k ltac:(lia)) as (v & v2 & Hv & Hv2 & _ & Hnew).
    rewrite le16toh_ptr_erased_sector in Hv2 by lia. injection Hv2 as <-.
    exists v. split; [done|].
    rewrite Hnew, land_65535; [done|]. by apply (le16toh_ptr_range data (k * 2)).
Qed.

Lemma erase_write_read_roundtrip_witness :
  exists fl1 fl2,
    flash_erase erased_flash 1 = Returned true fl1 /\
    flash_write false fl1 1 32764 [1; 2; 3; 4] 4 = Returned true fl2 /\
    flash_read fl2 1 32764 4 = Returned (true, [1; 2; 3; 4]) fl2.
Proof.
  apply (erase_write_read_roundtrip false erased_flash 1 32764 [1; 2; 3; 4] 4).
  - exact wf_erased_flash.
  - lia.
  - lia.
  - lia.
  - rewrite flash_sector_size_eq. lia.
  - reflexivity.
  - reflexivity.
  - reflexivity.
  - reflexivity.
Defined.

(** ** A panic in the middle of a write *)

Lemma wf_flash_word1_0000 : wf_flash flash_word1_0000.
Proof. split; split; vm_compute; reflexivity. Qed.

Lemma wf_flash_word0_1234 : wf_flash flash_word0_1234.
Proof. split; split; vm_compute; reflexivity. Qed.

Lemma wf_flash_word0_00F0 : wf_flash flash_word0_00F0.
Proof. split; split; vm_compute; reflexivity. Qed.

(** C9: when the per-word check of [flash_write] panics at word index [i],
    the flash at that moment holds, in every word of the request before
    [i], the AND of its previous content and the data word; the words from
    [i] on and all bytes outside the request are as before.  Nothing is
    rolled back. *)
Theorem flash_write_panic_keeps_partial_write
    mw fl sector offset data length s pos bi di fl' :
  wf_flash fl -> uint8_t sector -> uint32_t offset -> uint16_t length ->
  flash_write mw fl sector offset data length
    = Panicked (FatalInvalidWrite16 s pos bi di) fl' ->
  exists i v v2,
    0 <= i < length / 2 /\ pos = offset + i /\
    le16toh_ptr data (i * 2) = Some v /\
    le16toh_ptr (flash_at fl sector) (offset + i * 2) = Some v2 /\
    word_rejected mw v v2 = true /\
    (forall k, 0 <= k < i ->
       exists w w2,
         le16toh_ptr data (k * 2) = Some w /\
         le16toh_ptr (flash_at fl sector) (offset + k * 2) = Some w2 /\
         le16toh_ptr (flash_at fl' sector) (offset + k * 2) = Some (Z.land w2 w)) /\
    (forall j, j < offset \/ offset + i * 2 <= j ->
       byte_at (flash_at fl' sector) j = byte_at (flash_at fl sector) j) /\
    (forall s', 0 <= s' <= 1 -> s' <> sector -> flash_at fl' s' = flash_at fl s').
Proof.
  intros Hwf [Hs0 _] [Ho0 Ho1] [Hl0 _] H.
  apply flash_write_panicked16 in H as (Hs & Hr & Ho & Hl & buf' & Hloop & ->).
  destruct (wf_flash_at fl sector Hwf) as [Hlen Hb].
  pose proof (write16_loop_post mw sector offset data
                (Z.to_nat (length / 2)) 0 (flash_at fl sector) ltac:(lia) Hb) as Hpost.
  rewrite Hloop in Hpost.
  destruct Hpost as (i & v & v2 & bi' & di' & Hi & Hp & Hv & Hv2 & Hrej & _ & _ & Hw & Hfar).
  assert (Hhalf : 0 <= length / 2) by (apply Z.div_pos; lia).
  pose proof (le16toh_ptr_bounds _ _ _ Hv2) as [_ Hin].
  rewrite Hlen, flash_sector_size_eq in Hin.
  injection Hp as _ -> _ _. rewrite flash_at_with.
  exists i, v, v2. split_and!; try done; try lia.
  - apply add32_small. lia.
  - intros k Hk. destruct (Hw k ltac:(lia)) as (w & w2 & Hw1 & Hw2 & _ & Hw4).
    by exists w, w2.
  - intros j Hj. apply Hfar. lia.
  - intros s' Hs' Hne. apply flash_at_with_other; [lia..|done].
Qed.

Lemma flash_write_panic_keeps_partial_write_witness :
  le16toh_ptr (flash_at flash_word1_0000 0) 0 = Some 65535 /\
  exists s pos bi di fl',
    flash_write false flash_word1_0000 0 0 [52; 18; 1; 0] 4
      = Panicked (FatalInvalidWrite16 s pos bi di) fl' /\
    le16toh_ptr (flash_at fl' 0) 0 = Some 4660 /\
    exists i v v2,
      0 <= i < 4 / 2 /\ pos = 0 + i /\
      le16toh_ptr [52; 18; 1; 0] (i * 2) = Some v /\
      le16toh_ptr (flash_at flash_word1_0000 0) (0 + i * 2) = Some v2 /\
      word_rejected false v v2 = true /\
      (forall k, 0 <= k < i ->
         exists w w2,
           le16toh_ptr [52; 18; 1; 0] (k * 2) = Some w /\
           le16toh_ptr (flash_at flash_word1_0000 0) (0 + k * 2) = Some w2 /\
           le16toh_ptr (flash_at fl' 0) (0 + k * 2) = Some (Z.land w2 w)) /\
      (forall j, j < 0 \/ 0 + i * 2 <= j ->
         byte_at (flash_at fl' 0) j = byte_at (flash_at flash_word1_0000 0) j) /\
      (forall s', 0 <= s' <= 1 -> s' <> 0 ->
         flash_at fl' s' = flash_at flash_word1_0000 s').
Proof.
  split; [vm_compute; reflexivity|].
  assert (Hrun : match flash_write false flash_word1_0000 0 0 [52; 18; 1; 0] 4 with
                 | Panicked (FatalInvalidWrite16 _ _ _ _) fl' =>
                   le16toh_ptr (flash_at fl' 0) 0 = Some 4660
                 | _ => False
                 end) by (vm_compute; reflexivity).
  destruct (flash_write false flash_word1_0000 0 0 [52; 18; 1; 0] 4)
    as [r fl'|p fl'|] eqn:E; try contradiction.
  destruct p as [| | |s pos bi di| | |]; try contradiction.
  exists s, pos, bi, di, fl'. split; [reflexivity|]. split; [exact Hrun|].
  apply (flash_write_panic_keeps_partial_write
           false flash_word1_0000 0 0 [52; 18; 1; 0] 4 s pos bi di fl').
  - exact wf_flash_word1_0000.
  - in_range.
  - in_range.
  - in_range.
  - exact E.
Defined.

(** ** The two checks of the loop body *)

(** The first check, [v & !v2], fires only when the stored word is zero and
    the lowest bit of the data word is set. *)
Lemma first_check_fires v v2 :
  negb (Z.land v (lnot_int v2) =? 0) = true <-> v2 = 0 /\ Z.odd v = true.
Proof.
  unfold lnot_int. destruct (Z.eqb_spec v2 0) as [-> | Hne].
  - change 1 with (Z.ones 1). rewrite Z.land_ones by lia. change (2 ^ 1) with 2.
    rewrite <- Z.bit0_mod, Z.bit0_odd. destruct (Z.odd v); cbn; intuition congruence.
  - rewrite Z.land_0_r. cbn. intuition congruence.
Qed.

Lemma rewrite_check_true v v2 :
  rewrite_check v v2 = true <-> v <> v2 /\ v <> 65535 /\ v2 <> 65535.
Proof.
  unfold rewrite_check. rewrite !andb_true_iff, !negb_true_iff, !Z.eqb_neq. tauto.
Qed.

Lemma word_rejected_rewrite v v2 :
  v <> v2 -> v <> 65535 -> v2 <> 65535 -> word_rejected false v v2 = true.
Proof.
  intros H1 H2 H3. unfold word_rejected.
  replace (rewrite_check v v2) with true by (symmetry; by apply rewrite_check_true).
  apply orb_true_r.
Qed.

(** C3, as amended: when [AP_FLASHSTORAGE_MULTI_WRITE] is not defined,
    [flash_write] stops in a panic whenever a 16-bit word of the target range
    holds a value different from the data word and neither of the two is
    0xFFFF; so a write that returns leaves every word that was already
    programmed (not 0xFFFF) with the value it had. *)
Theorem flash_write_programs_a_word_once fl sector offset data length :
  wf_flash fl -> uint8_t sector -> uint32_t offset -> uint16_t length ->
  (forall k v v2,
     0 <= k < length / 2 ->
     le16toh_ptr data (k * 2) = Some v ->
     le16toh_ptr (flash_at fl sector) (offset + k * 2) = Some v2 ->
     v <> v2 -> v <> 65535 -> v2 <> 65535 ->
     is_panicked (flash_write false fl sector offset data length)) /\
  (forall r fl' k v2,
     flash_write false fl sector offset data length = Returned r fl' ->
     0 <= k < length / 2 ->
     le16toh_ptr (flash_at fl sector) (offset + k * 2) = Some v2 ->
     v2 <> 65535 ->
     le16toh_ptr (flash_at fl' sector) (offset + k * 2) = Some v2).
Proof.
  intros Hwf [Hs0 _] [Ho0 _] [Hl0 _].
  destruct (wf_flash_at fl sector Hwf) as [Hlen Hb].
  assert (Hhalf : 0 <= length / 2) by (apply Z.div_pos; lia).
  pose proof (write16_loop_post false sector offset data
                (Z.to_nat (length / 2)) 0 (flash_at fl sector) ltac:(lia) Hb) as Hpost.
  split.
  - intros k v v2 Hk Hv Hv2 Hne Hv1 Hv21.
    pose proof (word_rejected_rewrite v v2 Hne Hv1 Hv21) as Hrej.
    unfold flash_write.
    destruct (sector >? 1); [exact I|].
    destruct (add32 offset length >? flash_sector_size); [exact I|].
    destruct (negb (Z.land offset 1 =? 0) || negb (Z.land length 1 =? 0)); [exact I|].
    cbv zeta.
    destruct (write16_loop false sector offset data _ 0 (flash_at fl sector))
      as [r buf'|p buf'|]; cbn [loop_post outcome_map is_panicked] in Hpost |- *.
    + destruct Hpost as (_ & _ & _ & Hw & _).
      destruct (word_written_inj _ _ _ _ _ _ _ _ (Hw k ltac:(lia)) Hv Hv2). congruence.
    + exact I.
    + destruct Hpost as (k' & Hk' & Hnone & Hacc).
      destruct (Z.lt_trichotomy k k') as [Hlt | [-> | Hgt]].
      * destruct (Hacc k ltac:(lia)) as (w & w2 & Hw & Hw2 & Hok). congruence.
      * destruct Hnone; congruence.
      * pose proof (le16toh_ptr_bounds _ _ _ Hv) as [_ Hd].
        pose proof (le16toh_ptr_bounds _ _ _ Hv2) as [_ Hf].
        destruct Hnone as [Hn | Hn]; apply le16toh_ptr_None in Hn; lia.
  - intros r fl' k v2 H Hk Hv2 Hne.
    apply flash_write_returned in H as (_ & _ & _ & _ & buf' & Hloop & ->).
    rewrite Hloop in Hpost. destruct Hpost as (_ & _ & _ & Hw & _).
    rewrite flash_at_with.
    destruct (Hw k ltac:(lia)) as (w & w2 & Hw1 & Hw2 & Hok & Hnew).
    assert (w2 = v2) by congruence. subst w2. rewrite Hnew. f_equal.
    pose proof (le16toh_ptr_range _ _ _ Hb Hv2) as Hr2.
    unfold word_rejected in Hok. apply orb_false_elim in Hok as [_ Hok].
    cbn [negb andb] in Hok.
    destruct (Z.eq_dec w v2) as [-> | Hwv]; [apply Z.land_diag|].
    destruct (Z.eq_dec w 65535) as [-> | Hw65].
    + rewrite Z.land_comm. by apply land_65535.
    + assert (rewrite_check w v2 = true) by (by apply rewrite_check_true). congruence.
Qed.

Lemma flash_write_programs_a_word_once_witness :
  is_panicked (flash_write false flash_word0_1234 0 0 [52; 19] 2) /\
  is_returned (flash_write false flash_word0_1234 0 0 [52; 18; 7; 0] 4) /\
  (forall r fl',
     flash_write false flash_word0_1234 0 0 [52; 18; 7; 0] 4 = Returned r fl' ->
     le16toh_ptr (flash_at fl' 0) (0 + 0 * 2) = Some 4660).
Proof.
  split.
  - apply (proj1 (flash_write_programs_a_word_once flash_word0_1234 0 0 [52; 19] 2
                    wf_flash_word0_1234 ltac:(in_range)
                    ltac:(in_range) ltac:(in_range))
             0 4916 4660).
    + change (2 / 2) with 1. lia.
    + reflexivity.
    + vm_compute. reflexivity.
    + lia.
    + lia.
    + lia.
  - split; [vm_compute; exact I|]. intros r fl' H.
    apply (proj2 (flash_write_programs_a_word_once flash_word0_1234 0 0 [52; 18; 7; 0] 4
                    wf_flash_word0_1234 ltac:(in_range)
                    ltac:(in_range) ltac:(in_range))
             r fl' 0 4660 H).
    + change (4 / 2) with 2. lia.
    + vm_compute. reflexivity.
    + lia.
Defined.

(** C3, as it was stated, fails when [AP_FLASHSTORAGE_MULTI_WRITE] is
    defined: word 0 of sector 0 holds 0x00F0, the data word is 0x0F00,
    neither is 0xFFFF, and [flash_write] returns, leaving 0x0000. *)
Lemma flash_write_multi_write_reprograms :
  le16toh_ptr (flash_at flash_word0_00F0 0) 0 = Some 240 /\
  le16toh_ptr [0; 15] 0 = Some 3840 /\
  ~ is_panicked (flash_write true flash_word0_00F0 0 0 [0; 15] 2) /\
  is_returned (flash_write true flash_word0_00F0 0 0 [0; 15] 2) /\
  le16toh_ptr (flash_at (final_flash (flash_write true flash_word0_00F0 0 0 [0; 15] 2)) 0) 0
    = Some 0.
Proof.
  split_and!.
  - vm_compute. reflexivity.
  - reflexivity.
  - assert (H : is_returned (flash_write true flash_word0_00F0 0 0 [0; 15] 2))
      by (vm_compute; exact I).
    destruct (flash_write true flash_word0_00F0 0 0 [0; 15] 2); [intros []|destruct H..].
  - vm_compute. exact I.
  - vm_compute. reflexivity.
Qed.

(** C2 at a failing input, in either build: word 0 of sector 0 holds 0x1234
    and the data word 0xFFFF has bits set where it has zeros, yet
    [flash_write] returns true and the word still reads 0x1234.  With
    [AP_FLASHSTORAGE_MULTI_WRITE] defined, 0x0F00 written over 0x00F0 also
    returns true and leaves 0x0000, which is neither of the two. *)
Theorem flash_write_accepts_setting_cleared_bits :
  (forall mw,
     le16toh_ptr (flash_at flash_word0_1234 0) 0 = Some 4660 /\
     le16toh_ptr [255; 255] 0 = Some 65535 /\
     Z.land 65535 (Z.lnot 4660) <> 0 /\
     exists fl',
       flash_write mw flash_word0_1234 0 0 [255; 255] 2 = Returned true fl' /\
       le16toh_ptr (flash_at fl' 0) 0 = Some 4660) /\
  (le16toh_ptr (flash_at flash_word0_00F0 0) 0 = Some 240 /\
   le16toh_ptr [0; 15] 0 = Some 3840 /\
   Z.land 3840 (Z.lnot 240) <> 0 /\
   exists fl',
     flash_write true flash_word0_00F0 0 0 [0; 15] 2 = Returned true fl' /\
     le16toh_ptr (flash_at fl' 0) 0 = Some 0).
Proof.
  split.
  - intros mw. split_and!; [vm_compute; reflexivity | reflexivity | done |].
    assert (H : match flash_write mw flash_word0_1234 0 0 [255; 255] 2 with
                | Returned true fl' => le16toh_ptr (flash_at fl' 0) 0 = Some 4660
                | _ => False
                end) by (destruct mw; vm_compute; reflexivity).
    destruct (flash_write mw flash_word0_1234 0 0 [255; 255] 2) as [[|] fl'| |];
      try contradiction.
    by exists fl'.
  - split_and!; [vm_compute; reflexivity | reflexivity | done |].
    assert (H : match flash_write true flash_word0_00F0 0 0 [0; 15] 2 with
                | Returned true fl' => le16toh_ptr (flash_at fl' 0) 0 = Some 0
                | _ => False
                end) by (vm_compute; reflexivity).
    destruct (flash_write true flash_word0_00F0 0 0 [0; 15] 2) as [[|] fl'| |];
      try contradiction.
    by exists fl'.
Qed.

(** ** The guards of the three primitives *)

(** What the guards do reject: a sector above 1, a range that ends past the
    sector when the 32-bit sum does not wrap, and, for writes, an odd offset
    or length. *)
Lemma flash_guards_without_wraparound mw fl sector offset data length :
  uint32_t offset -> uint16_t length ->
  (sector > 1 \/ flash_sector_size < offset + length < 4294967296 ->
   is_panicked (flash_write mw fl sector offset data length) /\
   is_panicked (flash_read fl sector offset length)) /\
  (Z.odd offset = true \/ Z.odd length = true ->
   is_panicked (flash_write mw fl sector offset data length)).
Proof.
  intros [Ho0 Ho1] [Hl0 Hl1]. split.
  - intros H. unfold flash_write, flash_read.
    destruct (Z.gtb_spec sector 1); [done|].
    destruct H as [H | H]; [lia|]. rewrite add32_small by lia.
    destruct (Z.gtb_spec (offset + length) flash_sector_size); [done|lia].
  - intros H. unfold flash_write.
    destruct (sector >? 1); [done|].
    destruct (add32 offset length >? flash_sector_size); [done|].
    rewrite !land_1_even, <- !Z.negb_odd.
    destruct H as [-> | ->]; cbn; [done|]. by destruct (Z.odd offset).
Qed.

Lemma flash_read_outside fl sector offset length :
  sector <= 1 -> add32 offset length <= flash_sector_size ->
  Z.of_nat (List.length (flash_at fl sector)) < offset + length ->
  flash_read fl sector offset length = Undefined.
Proof.
  intros Hs Hr Hout. unfold flash_read.
  destruct (Z.gtb_spec sector 1); [lia|].
  destruct (Z.gtb_spec (add32 offset length) flash_sector_size); [lia|]. cbv zeta.
  destruct (Z.leb_spec (offset + length) (Z.of_nat (List.length (flash_at fl sector))));
    [lia|]. by rewrite andb_false_r.
Qed.

Lemma byte_at_erased_sector_outside j :
  flash_sector_size <= j -> byte_at erased_sector j = None.
Proof.
  intros Hj. apply byte_at_None. right.
  destruct wf_erased_sector as [-> _]. exact Hj.
Qed.

(** C5 at a failing input: a range whose 32-bit sum [offset + length] wraps
    around passes the range guard of both primitives, although it ends far
    past the sector; the call then leaves the sector buffer instead of
    stopping in a panic. *)
Theorem flash_range_guard_wraps_around mw :
  uint32_t 4294967294 /\ uint16_t 2 /\
  flash_sector_size < 4294967294 + 2 /\
  add32 4294967294 2 = 0 /\
  flash_write mw erased_flash 0 4294967294 [0; 0] 2 = Undefined /\
  ~ is_panicked (flash_write mw erased_flash 0 4294967294 [0; 0] 2) /\
  flash_read erased_flash 0 4294967294 2 = Undefined /\
  ~ is_panicked (flash_read erased_flash 0 4294967294 2).
Proof.
  assert (Hw : flash_write mw erased_flash 0 4294967294 [0; 0] 2 = Undefined).
  { rewrite flash_write_checked by (vm_compute; (reflexivity || discriminate)).
    change (Z.to_nat (2 / 2)) with 1%nat. rewrite write16_loop_step.
    change (le16toh_ptr [0; 0] (0 * 2)) with (Some 0).
    unfold le16toh_ptr at 1. change (flash_at erased_flash 0) with erased_sector.
    rewrite byte_at_erased_sector_outside by (vm_compute; discriminate).
    reflexivity. }
  assert (Hr : flash_read erased_flash 0 4294967294 2 = Undefined).
  { apply flash_read_outside.
    - lia.
    - vm_compute. discriminate.
    - change (flash_at erased_flash 0) with erased_sector.
      destruct wf_erased_sector as [-> _]. rewrite flash_sector_size_eq. lia. }
  rewrite Hw, Hr. split_and!; try reflexivity.
  - in_range.
  - in_range.
  - intros [].
  - intros [].
Qed.

(** C8: each of the three primitives, when it returns at all, returns
    true. *)
Theorem flash_primitives_return_true :
  (forall mw fl sector offset data length r fl',
     flash_write mw fl sector offset data length = Returned r fl' -> r = true) /\
  (forall fl sector offset length r bs fl',
     flash_read fl sector offset length = Returned (r, bs) fl' -> r = true) /\
  (forall fl sector r fl',
     flash_erase fl sector = Returned r fl' -> r = true).
Proof.
  split_and!.
  - intros mw fl sector offset data length r fl' H.
    apply flash_write_returned in H as (_ & _ & _ & _ & buf' & Hloop & _).
    clear fl'. revert Hloop. generalize (flash_at fl sector). generalize 0.
    induction (Z.to_nat (length / 2)) as [|n IH]; intros i buf.
    + cbn. by intros [= <- _].
    + rewrite write16_loop_step.
      destruct (le16toh_ptr data (i * 2)); [|done].
      destruct (le16toh_ptr buf (offset + i * 2)); [|done].
      destruct (word_rejected mw _ _); [done|].
      destruct (put_le16_ptr buf _ _); [|done]. apply IH.
  - intros fl sector offset length r bs fl'. unfold flash_read.
    destruct (sector >? 1); [done|].
    destruct (add32 offset length >? flash_sector_size); [done|]. cbv zeta.
    destruct (_ && _); [|done]. by intros [= <- _ _].
  - intros fl sector r fl'. unfold flash_erase.
    destruct (sector >? 1); [done|].
    destruct (memset _ _ _); [|done]. by intros [= <- _].
Qed.

Lemma flash_primitives_return_true_witness :
  (exists r fl', flash_write false erased_flash 1 0 [52; 18] 2 = Returned r fl' /\ r = true) /\
  (exists r bs fl', flash_read erased_flash 1 0 2 = Returned (r, bs) fl' /\ r = true) /\
  (exists r fl', flash_erase erased_flash 1 = Returned r fl' /\ r = true).
Proof.
  destruct flash_primitives_return_true as (Hw & Hr & He).
  split_and!.
  - assert (H : is_returned (flash_write false erased_flash 1 0 [52; 18] 2))
      by (vm_compute; exact I).
    destruct (flash_write false erased_flash 1 0 [52; 18] 2) as [r fl'| |] eqn:E;
      try contradiction.
    exists r, fl'. split; [reflexivity|]. exact (Hw _ _ _ _ _ _ _ _ E).
  - assert (H : is_returned (flash_read erased_flash 1 0 2)) by (vm_compute; exact I).
    destruct (flash_read erased_flash 1 0 2) as [[r bs] fl'| |] eqn:E; try contradiction.
    exists r, bs, fl'. split; [reflexivity|]. exact (Hr _ _ _ _ _ _ _ E).
  - assert (H : is_returned (flash_erase erased_flash 1)) by (vm_compute; exact I).
    destruct (flash_erase erased_flash 1) as [r fl'| |] eqn:E; try contradiction.
    exists r, fl'. split; [reflexivity|]. exact (He _ _ _ _ E).
Defined.

(** ** [FlashTest::write] *)

Lemma memcpy_inside dst pos src n :
  0 <= pos -> 0 <= n -> n <= Z.of_nat (length src) -> pos + n <= Z.of_nat (length dst) ->
  memcpy dst pos src n =
  Some (take (Z.to_nat pos) dst ++ take (Z.to_nat n) src ++ drop (Z.to_nat (pos + n)) dst).
Proof.
  intros H1 H2 H3 H4. unfold memcpy.
  destruct (Z.leb_spec 0 pos); [|lia]. destruct (Z.leb_spec 0 n); [|lia].
  destruct (Z.leb_spec n (Z.of_nat (length src))); [|lia].
  by destruct (Z.leb_spec (pos + n) (Z.of_nat (length dst))); [|lia].
Qed.

Lemma memcpy_Some dst pos src n dst' :
  memcpy dst pos src n = Some dst' ->
  length dst' = length dst /\
  slice dst' pos n = take (Z.to_nat n) src /\
  (forall j, j < pos \/ pos + n <= j -> byte_at dst' j = byte_at dst j).
Proof.
  unfold memcpy.
  destruct (Z.leb_spec 0 pos); [|done]. destruct (Z.leb_spec 0 n); [|done].
  destruct (Z.leb_spec n (Z.of_nat (length src))); [|done].
  destruct (Z.leb_spec (pos + n) (Z.of_nat (length dst))); [|done].
  cbn [andb]. intros [= <-].
  assert (Hl1 : length (take (Z.to_nat pos) dst) = Z.to_nat pos)
    by (rewrite length_take; lia).
  assert (Hl2 : length (take (Z.to_nat n) src) = Z.to_nat n)
    by (rewrite length_take; lia).
  split_and!.
  - rewrite !length_app, Hl1, Hl2, length_drop. lia.
  - unfold slice. rewrite drop_app_length' by done.
    by rewrite take_app_length' by done.
  - intros j Hj. unfold byte_at. destruct (Z.leb_spec 0 j); [|done].
    destruct Hj as [Hj | Hj].
    + rewrite lookup_app_l by lia. apply lookup_take_lt. lia.
    + rewrite lookup_app_r by lia. rewrite lookup_app_r by lia.
      rewrite lookup_drop, Hl1, Hl2. f_equal. lia.
Qed.

Section HarnessSpec.
Context {Storage : Type}.
Variable storage_size : Z.
Variable storage_write : bool -> Engine Storage -> Z -> Z -> outcome (Engine Storage) bool.

(** C10: for a call of [write] whose range lies inside the images, the two
    [memcpy] calls give a state [t1] in which [mem_mirror] and [mem_buffer]
    both hold the data on the range and are otherwise as before; [storage.write]
    is called on that state, so the images agree on the range whatever it
    answers; whatever it answers the mirror keeps the data; and the failure
    line is printed exactly when it answers false while [erase_ok] is
    true. *)
Theorem write_updates_both_images_first
    (t : FlashTest Storage) (offset : Z) (data : list Z) (length : Z) :
  wf_images storage_size t -> uint16_t offset -> uint16_t length ->
  offset + length <= storage_size -> Z.of_nat (List.length data) = length ->
  exists t1,
    write_images t offset data length = Some t1 /\
    write storage_write t offset data length = write_storage storage_write t1 offset length /\
    slice (mem_mirror t1) offset length = data /\
    slice (mem_buffer t1) offset length = data /\
    e_buffer (engine_of t1) = mem_buffer t1 /\
    (forall j, j < offset \/ offset + length <= j ->
       byte_at (mem_mirror t1) j = byte_at (mem_mirror t) j /\
       byte_at (mem_buffer t1) j = byte_at (mem_buffer t) j) /\
    wf_images storage_size t1 /\
    match storage_write (flash_erase_ok t1) (engine_of t1) offset length with
    | Returned ok e =>
      exists t',
        write storage_write t offset data length = Returned tt t' /\
        mem_mirror t' = mem_mirror t1 /\
        mem_buffer t' = e_buffer e /\
        console t' =
          console t ++ (if negb ok && erase_ok t then [FailedToWrite offset length] else [])
    | Panicked p e =>
      exists t', write storage_write t offset data length = Panicked p t' /\
                 mem_mirror t' = mem_mirror t1 /\ console t' = console t
    | Undefined => write storage_write t offset data length = Undefined
    end.
Proof.
  intros [Hbuf Hmir] [Ho _] [Hl _] Hin Hlen.
  unfold write, write_images.
  rewrite (memcpy_inside (mem_mirror t)), (memcpy_inside (mem_buffer t)) by lia.
  pose proof (memcpy_inside (mem_mirror t) offset data length
                ltac:(lia) ltac:(lia) ltac:(lia) ltac:(lia)) as Hm.
  pose proof (memcpy_inside (mem_buffer t) offset data length
                ltac:(lia) ltac:(lia) ltac:(lia) ltac:(lia)) as Hb.
  apply memcpy_Some in Hm as (Hm1 & Hm2 & Hm3).
  apply memcpy_Some in Hb as (Hb1 & Hb2 & Hb3).
  eexists. split; [reflexivity|]. split; [reflexivity|].
  cbn [mem_mirror mem_buffer]. split_and!.
  - rewrite Hm2. apply take_ge. lia.
  - rewrite Hb2. apply take_ge. lia.
  - reflexivity.
  - intros j Hj. split; [by apply Hm3 | by apply Hb3].
  - split; cbn [mem_mirror mem_buffer]; lia.
  - unfold write_storage.
    destruct (storage_write _ _ _ _) as [ok e|p e|]; [| |done].
    + cbn [flash_erase_ok erase_ok with_engine].
      destruct ok, (erase_ok t); cbn [negb andb]; eexists;
        (split; [reflexivity|]); cbn; by rewrite ?app_nil_r.
    + eexists. split; [reflexivity|]. done.
Qed.

End HarnessSpec.

Lemma wf_fresh_test gate : wf_images 16384 (fresh_test 16384 gate).
Proof. split; vm_compute; reflexivity. Qed.

Lemma write_updates_both_images_first_witness :
  exists t1 t',
    write_images (fresh_test 16384 true) 37 [42] 1 = Some t1 /\
    slice (mem_mirror t1) 37 1 = [42] /\
    slice (mem_buffer t1) 37 1 = [42] /\
    write failing_engine (fresh_test 16384 true) 37 [42] 1 = Returned tt t' /\
    mem_mirror t' = mem_mirror t1 /\
    console t' = [FailedToWrite 37 1].
Proof.
  destruct (write_updates_both_images_first 16384 failing_engine
              (fresh_test 16384 true) 37 [42] 1)
    as (t1 & Himg & _ & Hmir & Hbuf & _ & _ & _ & Hcall).
  - exact (wf_fresh_test true).
  - in_range.
  - in_range.
  - lia.
  - reflexivity.
  - cbn [failing_engine] in Hcall. destruct Hcall as (t' & Hw & Hm & _ & Hc).
    exists t1, t'. split_and!; [exact Himg | exact Hmir | exact Hbuf | exact Hw | exact Hm |].
    rewrite Hc. reflexivity.
Defined.


(** * Further properties of the flash primitives *)

Lemma word_rejected_refused mw v v2 :
  word_rejected mw v v2 = true <-> write16_refused mw v v2.
Proof.
  unfold word_rejected, write16_refused.
  rewrite orb_true_iff, first_check_fires, andb_true_iff, negb_true_iff,
    rewrite_check_true.
  tauto.
Qed.

Lemma word_rejected_not_refused mw v v2 :
  word_rejected mw v v2 = false <-> ~ write16_refused mw v v2.
Proof.
  rewrite <- word_rejected_refused. by destruct (word_rejected mw v v2).
Qed.

Lemma flash_with_at fl sector : flash_with fl sector (flash_at fl sector) = fl.
Proof. unfold flash_with, flash_at. by destruct fl, (sector =? 0). Qed.

(** The guards, in the order the source tests them: each stops the call with
    its own panic and leaves the flash as it was.  The range is the one the
    32-bit sum can express (no wrap-around). *)
Theorem flash_guards_reject_in_order mw fl sector offset data length :
  uint32_t offset -> uint16_t length ->
  (sector > 1 ->
   flash_write mw fl sector offset data length = Panicked (FatalWriteSector sector) fl /\
   flash_read fl sector offset length = Panicked (FatalReadSector sector) fl /\
   flash_erase fl sector = Panicked (FatalEraseSector sector) fl) /\
  (sector <= 1 -> flash_sector_size < offset + length < 4294967296 ->
   flash_write mw fl sector offset data length
     = Panicked (FatalWriteRange sector offset length) fl /\
   flash_read fl sector offset length
     = Panicked (FatalReadRange sector offset length) fl) /\
  (sector <= 1 -> offset + length <= flash_sector_size ->
   Z.odd offset = true \/ Z.odd length = true ->
   flash_write mw fl sector offset data length
     = Panicked (FatalInvalidWrite sector offset length) fl).
Proof.
  intros [Ho0 Ho1] [Hl0 Hl1]. split_and!.
  - intros Hs. unfold flash_write, flash_read, flash_erase.
    by destruct (Z.gtb_spec sector 1); [|lia].
  - intros Hs Hr. unfold flash_write, flash_read.
    destruct (Z.gtb_spec sector 1); [lia|].
    rewrite add32_small by lia.
    by destruct (Z.gtb_spec (offset + length) flash_sector_size); [|lia].
  - intros Hs Hr Hodd. unfold flash_write.
    destruct (Z.gtb_spec sector 1); [lia|].
    rewrite add32_small by (rewrite flash_sector_size_eq in Hr; lia).
    destruct (Z.gtb_spec (offset + length) flash_sector_size); [lia|].
    rewrite !land_1_even, <- !Z.negb_odd.
    destruct Hodd as [-> | ->]; cbn; [done|]. by destruct (Z.odd offset).
Qed.

Lemma flash_guards_reject_in_order_witness :
  flash_write false erased_flash 2 0 [1; 2] 2 = Panicked (FatalWriteSector 2) erased_flash /\
  flash_read erased_flash 0 32767 2 = Panicked (FatalReadRange 0 32767 2) erased_flash /\
  flash_write true erased_flash 1 6 [1; 2; 3] 3
    = Panicked (FatalInvalidWrite 1 6 3) erased_flash.
Proof.
  destruct (flash_guards_reject_in_order false erased_flash 2 0 [1; 2] 2
              ltac:(in_range) ltac:(in_range)) as ((Hw & _ & _) & _ & _); [lia|].
  destruct (flash_guards_reject_in_order false erased_flash 0 32767 [] 2
              ltac:(in_range) ltac:(in_range)) as (_ & (_ & Hr) & _);
    [lia | rewrite flash_sector_size_eq; lia |].
  pose proof (proj2 (proj2 (flash_guards_reject_in_order true erased_flash 1 6 [1; 2; 3] 3
              ltac:(in_range) ltac:(in_range)))) as Ha.
  split_and!; [exact Hw | exact Hr |].
  apply Ha; [lia | rewrite flash_sector_size_eq; lia | right; reflexivity].
Defined.

(** For a request that passes the guards on an allocated flash, with enough
    data: [flash_write] returns exactly when no word of the range is
    refused, and panics exactly when one is; it never leaves the buffers. *)
Theorem flash_write_returns_iff_no_word_refused mw fl sector offset data length :
  wf_flash fl -> 0 <= sector <= 1 -> 0 <= offset -> 0 <= length ->
  offset + length <= flash_sector_size ->
  Z.even offset = true -> Z.even length = true ->
  length <= Z.of_nat (List.length data) ->
  (is_returned (flash_write mw fl sector offset data length) <->
   forall k v v2, 0 <= k < length / 2 ->
     data_word data k = Some v -> flash_word fl sector offset k = Some v2 ->
     ~ write16_refused mw v v2) /\
  (is_panicked (flash_write mw fl sector offset data length) <->
   exists k v v2, 0 <= k < length / 2 /\
     data_word data k = Some v /\ flash_word fl sector offset k = Some v2 /\
     write16_refused mw v v2) /\
  flash_write mw fl sector offset data length <> Undefined.
Proof.
  intros Hwf Hs Ho Hl Hr Heo Hel Hd. unfold data_word, flash_word.
  pose proof (even_double_half _ Hel) as Hhalf.
  assert (Hhalf0 : 0 <= length / 2) by (apply Z.div_pos; lia).
  destruct (wf_flash_at fl sector Hwf) as [Hlen Hb].
  rewrite flash_write_checked; [| lia | | done | done].
  2: { rewrite add32_small by (rewrite flash_sector_size_eq in Hr; lia). done. }
  pose proof (write16_loop_post mw sector offset data
                (Z.to_nat (length / 2)) 0 (flash_at fl sector) ltac:(lia) Hb) as Hpost.
  assert (Hread : forall k, 0 <= k < length / 2 ->
            exists v v2, le16toh_ptr data (k * 2) = Some v /\
                         le16toh_ptr (flash_at fl sector) (offset + k * 2) = Some v2).
  { intros k Hk.
    destruct (le16toh_ptr_inside data (k * 2)) as [v Hv]; [lia..|].
    destruct (le16toh_ptr_inside (flash_at fl sector) (offset + k * 2)) as [v2 Hv2];
      [lia..|]. by exists v, v2. }
  destruct (write16_loop mw sector offset data _ 0 (flash_at fl sector))
    as [r buf'|p buf'|]; cbn [loop_post outcome_map is_returned is_panicked] in Hpost |- *.
  - destruct Hpost as (_ & _ & _ & Hw & _). split_and!; [| |done].
    + split; [|done]. intros _ k v v2 Hk Hv Hv2.
      destruct (word_written_inj _ _ _ _ _ _ _ _ (Hw k ltac:(lia)) Hv Hv2) as [Hok _].
      by apply word_rejected_not_refused.
    + split; [done|]. intros (k & v & v2 & Hk & Hv & Hv2 & Hbad).
      destruct (word_written_inj _ _ _ _ _ _ _ _ (Hw k ltac:(lia)) Hv Hv2) as [Hok _].
      by apply word_rejected_not_refused in Hok.
  - destruct Hpost as (k & v & v2 & _ & _ & Hk & _ & Hv & Hv2 & Hrej & _).
    apply word_rejected_refused in Hrej. split_and!; [| |done].
    + split; [done|]. intros Hall. exfalso. by apply (Hall k v v2 ltac:(lia)).
    + split; [|done]. intros _. exists k, v, v2. split_and!; [lia..|done|done|done].
  - destruct Hpost as (k & Hk & Hnone & _).
    destruct (Hread k ltac:(lia)) as (v & v2 & Hv & Hv2).
    destruct Hnone; congruence.
Qed.

Lemma flash_write_returns_iff_no_word_refused_witness :
  is_returned (flash_write false flash_word0_1234 0 0 [52; 18; 7; 0] 4) /\
  is_panicked (flash_write true flash_word1_0000 0 0 [52; 18; 1; 0] 4) /\
  exists k v v2, 0 <= k < 4 / 2 /\
    data_word [52; 18; 1; 0] k = Some v /\ flash_word flash_word1_0000 0 0 k = Some v2 /\
    write16_refused true v v2.
Proof.
  split; [vm_compute; exact I|].
  assert (Hp : is_panicked (flash_write true flash_word1_0000 0 0 [52; 18; 1; 0] 4))
    by (vm_compute; exact I).
  split; [exact Hp|].
  destruct (flash_write_returns_iff_no_word_refused true flash_word1_0000 0 0 [52; 18; 1; 0] 4)
    as (_ & Hiff & _).
  - exact wf_flash_word1_0000.
  - lia.
  - lia.
  - lia.
  - rewrite flash_sector_size_eq. lia.
  - reflexivity.
  - reflexivity.
  - cbn. lia.
  - exact (proj1 Hiff Hp).
Defined.

(** The three primitives keep the flash well formed, however they end: two
    sectors of [flash_sector_size] cells that hold bytes. *)
Theorem flash_primitives_keep_flash_allocated mw fl sector offset data length :
  wf_flash fl ->
  (forall r fl', flash_write mw fl sector offset data length = Returned r fl' -> wf_flash fl') /\
  (forall p fl', flash_write mw fl sector offset data length = Panicked p fl' -> wf_flash fl') /\
  (forall r fl', flash_read fl sector offset length = Returned r fl' -> fl' = fl) /\
  (forall p fl', flash_read fl sector offset length = Panicked p fl' -> fl' = fl) /\
  (forall r fl', flash_erase fl sector = Returned r fl' -> wf_flash fl') /\
  (forall p fl', flash_erase fl sector = Panicked p fl' -> fl' = fl).
Proof.
  intros Hwf. destruct (wf_flash_at fl sector Hwf) as [Hlen Hb].
  assert (Hloop : forall o,
    write16_loop mw sector offset data (Z.to_nat (length / 2)) 0 (flash_at fl sector) = o ->
    match o with
    | Returned _ buf' | Panicked _ buf' => wf_sector buf'
    | Undefined => True
    end).
  { intros o <-.
    pose proof (write16_loop_post mw sector offset data
                  (Z.to_nat (length / 2)) 0 (flash_at fl sector) ltac:(lia) Hb) as Hpost.
    destruct (write16_loop _ _ _ _ _ _ _) as [r buf'|p buf'|]; [| |done].
    - destruct Hpost as (_ & Hl' & Hb' & _). split; [lia|done].
    - destruct Hpost as (k & v & v2 & bi & di & _ & _ & _ & _ & _ & Hl' & Hb' & _).
      split; [lia|done]. }
  split_and!.
  - intros r fl' H. apply flash_write_returned in H as (_ & _ & _ & _ & buf' & Hl & ->).
    apply wf_flash_with; [done|]. exact (Hloop _ Hl).
  - intros p fl'. unfold flash_write.
    destruct (sector >? 1); [by intros [= _ <-]|].
    destruct (add32 offset length >? flash_sector_size); [by intros [= _ <-]|].
    destruct (_ || _); [by intros [= _ <-]|]. cbv zeta.
    destruct (write16_loop _ _ _ _ _ _ _) as [r buf'|p' buf'|]; try done.
    intros [= _ <-]. apply wf_flash_with; [done|]. exact (Hloop _ eq_refl).
  - intros r fl'. unfold flash_read.
    destruct (sector >? 1); [done|].
    destruct (add32 offset length >? flash_sector_size); [done|]. cbv zeta.
    destruct (_ && _); [|done]. by intros [= _ <-].
  - intros p fl'. unfold flash_read.
    destruct (sector >? 1); [by intros [= _ <-]|].
    destruct (add32 offset length >? flash_sector_size); [by intros [= _ <-]|]. cbv zeta.
    by destruct (_ && _).
  - intros r fl' H. destruct (Z.le_gt_cases sector 1) as [Hs | Hs].
    + rewrite flash_erase_inside in H by done. injection H as _ <-.
      apply wf_flash_with; [done|]. apply wf_erased_sector.
    + unfold flash_erase in H. by destruct (Z.gtb_spec sector 1); [|lia].
  - intros p fl'. unfold flash_erase.
    destruct (sector >? 1); [by intros [= _ <-]|]. by destruct (memset _ _ _).
Qed.

Lemma flash_primitives_keep_flash_allocated_witness :
  exists p fl',
    flash_write true flash_word1_0000 0 0 [52; 18; 1; 0] 4 = Panicked p fl' /\
    wf_flash fl'.
Proof.
  assert (Hp : is_panicked (flash_write true flash_word1_0000 0 0 [52; 18; 1; 0] 4))
    by (vm_compute; exact I).
  destruct (flash_write true flash_word1_0000 0 0 [52; 18; 1; 0] 4) as [|p fl'|] eqn:E;
    try contradiction.
  exists p, fl'. split; [reflexivity|].
  exact (proj1 (proj2 (flash_primitives_keep_flash_allocated
                         true flash_word1_0000 0 0 [52; 18; 1; 0] 4 wf_flash_word1_0000))
           p fl' E).
Defined.

(** ** Bytes written and read back *)

Lemma land_le16_join lo2 hi2 lo hi :
  0 <= lo2 < 256 -> 0 <= lo < 256 -> 0 <= hi2 -> 0 <= hi ->
  Z.land (Z.lor lo2 (Z.shiftl hi2 8)) (Z.lor lo (Z.shiftl hi 8))
  = Z.lor (Z.land lo2 lo) (Z.shiftl (Z.land hi2 hi) 8).
Proof.
  intros Hlo2 Hlo Hhi2 Hhi. apply Z.bits_inj'. intros n Hn.
  rewrite !Z.land_spec, !Z.lor_spec, Z.land_spec.
  destruct (Z.lt_ge_cases n 8).
  - rewrite !Z.shiftl_spec_low by lia. by rewrite !orb_false_r.
  - rewrite !Z.shiftl_spec by lia. rewrite Z.land_spec.
    replace lo2 with (lo2 mod 2 ^ 8) by (apply Z.mod_small; lia).
    replace lo with (lo mod 2 ^ 8) by (apply Z.mod_small; lia).
    by rewrite !Z.mod_pow2_bits_high by lia.
Qed.

Lemma land_byte_range b d : 0 <= b < 256 -> 0 <= Z.land b d < 256.
Proof.
  intros Hb. split; [apply Z.land_nonneg; lia|].
  assert (Z.land b d <= b); [|lia].
  rewrite <- (Z.lor_ldiff_and b d) at 2.
  rewrite <- Z.add_nocarry_lor.
  - assert (0 <= Z.ldiff b d) by (apply Z.ldiff_nonneg; lia). lia.
  - apply Z.bits_inj'. intros n Hn.
    rewrite Z.land_spec, Z.ldiff_spec, Z.land_spec, Z.bits_0.
    destruct (Z.testbit b n), (Z.testbit d n); done.
Qed.

(** A word that the loop has written holds, in each of its two bytes, the
    AND of the byte that was there and the data byte. *)
Lemma word_written_bytes mw offset data buf buf' k :
  bytes data -> bytes buf -> bytes buf' ->
  word_written mw offset data buf buf' k ->
  forall e, 0 <= e <= 1 ->
    exists b d,
      byte_at buf (offset + k * 2 + e) = Some b /\
      byte_at data (k * 2 + e) = Some d /\
      byte_at buf' (offset + k * 2 + e) = Some (Z.land b d).
Proof.
  intros Hd Hb Hb' (v & v2 & Hv & Hv2 & _ & Hnew) e He.
  apply le16toh_ptr_Some in Hv as (lo & hi & Hlo & Hhi & ->).
  apply le16toh_ptr_Some in Hv2 as (lo2 & hi2 & Hlo2 & Hhi2 & ->).
  apply le16toh_ptr_Some in Hnew as (lo' & hi' & Hlo' & Hhi' & Heq).
  pose proof (byte_at_range _ _ _ Hd Hlo). pose proof (byte_at_range _ _ _ Hd Hhi).
  pose proof (byte_at_range _ _ _ Hb Hlo2). pose proof (byte_at_range _ _ _ Hb Hhi2).
  pose proof (byte_at_range _ _ _ Hb' Hlo'). pose proof (byte_at_range _ _ _ Hb' Hhi').
  rewrite land_le16_join in Heq by lia.
  pose proof (land_byte_range lo2 lo ltac:(lia)).
  pose proof (land_byte_range hi2 hi ltac:(lia)).
  rewrite !le16_join_add in Heq by lia.
  assert (lo' = Z.land lo2 lo) by lia. assert (hi' = Z.land hi2 hi) by lia. subst.
  destruct (Z.eq_dec e 0) as [-> | Hne].
  - rewrite !Z.add_0_r. by exists lo2, lo.
  - replace e with 1 by lia. by exists hi2, hi.
Qed.

(** Byte [j] of a request lies in word [j / 2]. *)
Lemma byte_in_word j : 0 <= j -> j = j / 2 * 2 + j mod 2 /\ 0 <= j mod 2 <= 1.
Proof.
  intros Hj. pose proof (Z.div_mod j 2 ltac:(lia)).
  pose proof (Z.mod_pos_bound j 2 ltac:(lia)). lia.
Qed.

Lemma flash_write_returned_in_range mw fl sector offset data length r fl' :
  wf_flash fl -> uint32_t offset -> uint16_t length ->
  flash_write mw fl sector offset data length = Returned r fl' ->
  offset + length <= flash_sector_size.
Proof.
  intros Hwf [Ho0 Ho1] [Hl0 Hl1] H.
  apply flash_write_returned in H as (_ & Hr & _ & Hel & buf' & Hloop & _).
  destruct (wf_flash_at fl sector Hwf) as [Hlen Hb].
  pose proof (even_double_half _ Hel) as Hhalf.
  destruct (Z.eq_dec length 0) as [-> | Hne].
  - rewrite add32_small in Hr by lia. lia.
  - assert (Hpos : 0 < length / 2) by lia.
    pose proof (write16_loop_post mw sector offset data
                  (Z.to_nat (length / 2)) 0 (flash_at fl sector) ltac:(lia) Hb) as Hpost.
    rewrite Hloop in Hpost. destruct Hpost as (_ & _ & _ & Hw & _).
    destruct (Hw (length / 2 - 1) ltac:(lia)) as (v & v2 & _ & Hv2 & _).
    apply le16toh_ptr_bounds in Hv2. lia.
Qed.

Lemma flash_write_returned_wf mw fl sector offset data length :
  wf_flash fl ->
  (forall r fl', flash_write mw fl sector offset data length = Returned r fl' -> wf_flash fl').
Proof.
  intros Hwf r fl' H. destruct (wf_flash_at fl sector Hwf) as [Hlen Hb].
  apply flash_write_returned in H as (_ & _ & _ & _ & buf' & Hloop & ->).
  pose proof (write16_loop_post mw sector offset data
                (Z.to_nat (length / 2)) 0 (flash_at fl sector) ltac:(lia) Hb) as Hpost.
  rewrite Hloop in Hpost. destruct Hpost as (_ & Hl' & Hb' & _).
  apply wf_flash_with; [done|]. split; [lia|done].
Qed.

(** A write that returns, read back: each byte of the range is the AND of
    the byte that was there and the data byte, and [flash_read] of the range
    returns exactly these bytes. *)
Theorem flash_write_then_read_is_bytewise_and mw fl sector offset data length r fl' :
  wf_flash fl -> uint8_t sector -> uint32_t offset -> uint16_t length ->
  bytes data ->
  flash_write mw fl sector offset data length = Returned r fl' ->
  (forall j, 0 <= j < length ->
     exists b d,
       byte_at (flash_at fl sector) (offset + j) = Some b /\
       byte_at data j = Some d /\
       byte_at (flash_at fl' sector) (offset + j) = Some (Z.land b d)) /\
  flash_read fl' sector offset length =
    Returned (true, zip_with Z.land (slice (flash_at fl sector) offset length)
                                    (take (Z.to_nat length) data)) fl'.
Proof.
  intros Hwf Hs Ho Hl Hd H.
  pose proof (flash_write_returned_in_range _ _ _ _ _ _ _ _ Hwf Ho Hl H) as Hin.
  pose proof (flash_write_returned_wf mw fl sector offset data length Hwf
                _ _ H) as Hwf'.
  destruct Hs as [Hs0 _], Ho as [Ho0 _], Hl as [Hl0 _].
  apply flash_write_returned in H as (Hs & _ & _ & Hel & buf' & Hloop & ->).
  destruct (wf_flash_at fl sector Hwf) as [Hlen Hb].
  pose proof (even_double_half _ Hel) as Hhalf.
  pose proof (write16_loop_post mw sector offset data
                (Z.to_nat (length / 2)) 0 (flash_at fl sector) ltac:(lia) Hb) as Hpost.
  rewrite Hloop in Hpost. destruct Hpost as (_ & Hlen' & Hb' & Hw & _).
  rewrite flash_at_with in *.
  assert (Hbytes : forall j, 0 <= j < length ->
     exists b d,
       byte_at (flash_at fl sector) (offset + j) = Some b /\
       byte_at data j = Some d /\
       byte_at buf' (offset + j) = Some (Z.land b d)).
  { intros j Hj. destruct (byte_in_word j ltac:(lia)) as [Hjw He].
    assert (Hk : 0 <= j / 2 < 0 + Z.of_nat (Z.to_nat (length / 2))).
    { split; [apply Z.div_pos; lia|]. rewrite Z2Nat.id by (apply Z.div_pos; lia).
      apply Z.div_lt_upper_bound; lia. }
    destruct (word_written_bytes _ _ _ _ _ _ Hd Hb Hb' (Hw _ Hk) (j mod 2) He)
      as (b & d & H1 & H2 & H3).
    exists b, d. rewrite <- Z.add_assoc, <- Hjw in H1, H3. by rewrite <- Hjw in H2. }
  split; [exact Hbytes|].
  rewrite flash_read_inside by (done || lia). rewrite flash_at_with.
  f_equal. f_equal. apply list_eq. intros i.
  destruct (decide (i < Z.to_nat length)%nat) as [Hi | Hi].
  - destruct (Hbytes (Z.of_nat i) ltac:(lia)) as (b & d & H1 & H2 & H3).
    apply byte_at_Some in H1 as [_ H1]. apply byte_at_Some in H2 as [_ H2].
    apply byte_at_Some in H3 as [_ H3].
    replace (Z.to_nat (offset + Z.of_nat i)) with (Z.to_nat offset + i)%nat in H1, H3 by lia.
    rewrite Nat2Z.id in H2.
    rewrite lookup_take_lt, lookup_drop, H3 by done. symmetry.
    apply lookup_zip_with_Some. exists b, d. split_and!; [done| |].
    + unfold slice. by rewrite lookup_take_lt, lookup_drop.
    + by rewrite lookup_take_lt.
  - rewrite lookup_take_ge by lia. symmetry. apply lookup_ge_None.
    rewrite length_zip_with. unfold slice. rewrite length_take. lia.
Qed.

Lemma flash_write_then_read_is_bytewise_and_witness :
  exists r fl',
    flash_write true flash_word0_1234 0 0 [60; 16] 2 = Returned r fl' /\
    (forall j, 0 <= j < 2 ->
       exists b d,
         byte_at (flash_at flash_word0_1234 0) (0 + j) = Some b /\
         byte_at [60; 16] j = Some d /\
         byte_at (flash_at fl' 0) (0 + j) = Some (Z.land b d)) /\
    flash_read fl' 0 0 2 =
      Returned (true, zip_with Z.land (slice (flash_at flash_word0_1234 0) 0 2)
                                      (take (Z.to_nat 2) [60; 16])) fl'.
Proof.
  assert (Hr : is_returned (flash_write true flash_word0_1234 0 0 [60; 16] 2))
    by (vm_compute; exact I).
  destruct (flash_write true flash_word0_1234 0 0 [60; 16] 2) as [r fl'| |] eqn:E;
    try contradiction.
  exists r, fl'. split; [reflexivity|].
  apply (flash_write_then_read_is_bytewise_and true flash_word0_1234 0 0 [60; 16] 2 r fl').
  - exact wf_flash_word0_1234.
  - in_range.
  - in_range.
  - in_range.
  - reflexivity.
  - exact E.
Defined.

(** ** Writing what is already there, and empty requests *)

Lemma word_rejected_same mw v : word_rejected mw v v = false.
Proof.
  apply word_rejected_not_refused. unfold write16_refused.
  intros [[-> Hodd] | (_ & Hne & _)]; [discriminate | done].
Qed.

Lemma slice_byte_at p offset n data j :
  slice p offset n = data -> 0 <= offset -> 0 <= j < n ->
  offset + n <= Z.of_nat (length p) ->
  byte_at data j = byte_at p (offset + j).
Proof.
  intros <- Ho Hj Hin. unfold byte_at, slice.
  destruct (Z.leb_spec 0 j); [|lia]. destruct (Z.leb_spec 0 (offset + j)); [|lia].
  rewrite lookup_take_lt, lookup_drop by lia. f_equal. lia.
Qed.

Lemma slice_length p offset n :
  0 <= offset -> 0 <= n -> offset + n <= Z.of_nat (length p) ->
  Z.of_nat (length (slice p offset n)) = n.
Proof.
  intros Ho Hn Hin. unfold slice. rewrite length_take, length_drop. lia.
Qed.

Lemma slice_bytes p offset n : bytes p -> bytes (slice p offset n).
Proof.
  rewrite !bytes_Forall. intros H. unfold slice. by apply Forall_take, Forall_drop.
Qed.

Lemma byte_at_ext (a b : list Z) :
  length a = length b -> (forall j, 0 <= j -> byte_at a j = byte_at b j) -> a = b.
Proof.
  intros Hlen H. apply list_eq. intros i.
  specialize (H (Z.of_nat i) ltac:(lia)). unfold byte_at in H.
  destruct (Z.leb_spec 0 (Z.of_nat i)); [|lia]. by rewrite Nat2Z.id in H.
Qed.

(** Writing to a range the bytes it already holds returns true and leaves
    the flash exactly as it was, in either build. *)
Theorem flash_write_same_content_is_noop mw fl sector offset data length :
  wf_flash fl -> 0 <= sector <= 1 -> 0 <= offset -> 0 <= length ->
  offset + length <= flash_sector_size ->
  Z.even offset = true -> Z.even length = true ->
  slice (flash_at fl sector) offset length = data ->
  flash_write mw fl sector offset data length = Returned true fl.
Proof.
  intros Hwf Hs Ho Hl Hr Heo Hel Hsl.
  pose proof (even_double_half _ Hel) as Hhalf.
  assert (Hhalf0 : 0 <= length / 2) by (apply Z.div_pos; lia).
  destruct (wf_flash_at fl sector Hwf) as [Hlen Hb].
  assert (Hdl : Z.of_nat (List.length data) = length)
    by (rewrite <- Hsl; apply slice_length; lia).
  assert (Hd : bytes data) by (rewrite <- Hsl; by apply slice_bytes).
  assert (Hsame : forall k, 0 <= k < length / 2 ->
            exists v, le16toh_ptr data (k * 2) = Some v /\
                      le16toh_ptr (flash_at fl sector) (offset + k * 2) = Some v).
  { intros k Hk.
    destruct (le16toh_ptr_inside data (k * 2)) as [v Hv]; [lia..|].
    exists v. split; [done|]. rewrite <- Hv. unfold le16toh_ptr.
    rewrite (slice_byte_at _ _ _ _ (k * 2) Hsl), (slice_byte_at _ _ _ _ (k * 2 + 1) Hsl)
      by lia.
    by rewrite Z.add_assoc. }
  rewrite flash_write_checked; [| lia | | done | done].
  2: { rewrite add32_small by (rewrite flash_sector_size_eq in Hr; lia). done. }
  destruct (write16_loop_accepted mw sector offset data (Z.to_nat (length / 2)) 0
              (flash_at fl sector) ltac:(lia) Hb) as [buf' Hloop].
  { intros k Hk. destruct (Hsame k ltac:(lia)) as (v & Hv & Hv2).
    exists v, v. split_and!; [done..|apply word_rejected_same]. }
  pose proof (write16_loop_post mw sector offset data (Z.to_nat (length / 2)) 0
                (flash_at fl sector) ltac:(lia) Hb) as Hpost.
  rewrite Hloop in Hpost |- *. destruct Hpost as (_ & Hlen' & Hb' & Hw & Hfar).
  cbn [outcome_map]. f_equal.
  replace buf' with (flash_at fl sector); [apply flash_with_at|].
  symmetry. apply byte_at_ext; [done|]. intros j Hj.
  destruct (Z.lt_ge_cases j offset) as [Hlt | Hge]; [apply Hfar; lia|].
  destruct (Z.lt_ge_cases j (offset + length)) as [Hin | Hout]; [|apply Hfar; lia].
  destruct (byte_in_word (j - offset) ltac:(lia)) as [Hjw He].
  assert (Hk : 0 <= (j - offset) / 2 < 0 + Z.of_nat (Z.to_nat (length / 2))).
  { split; [apply Z.div_pos; lia|]. rewrite Z2Nat.id by lia.
    apply Z.div_lt_upper_bound; lia. }
  destruct (Hsame ((j - offset) / 2) ltac:(lia)) as (v & Hv & Hv2).
  destruct (word_written_inj _ _ _ _ _ _ _ _ (Hw _ Hk) Hv Hv2) as [_ Hnew].
  rewrite Z.land_diag in Hnew.
  destruct (le16toh_ptr_inj _ _ _ _ _ Hb' Hb Hnew Hv2) as [H0 H1].
  replace j with (offset + (j - offset) / 2 * 2 + (j - offset) mod 2) by lia.
  destruct (Z.eq_dec ((j - offset) mod 2) 0) as [-> | Hne].
  - by rewrite !Z.add_0_r.
  - replace ((j - offset) mod 2) with 1 by lia. done.
Qed.

Lemma flash_write_same_content_is_noop_witness :
  flash_write false flash_word0_1234 0 0 [52; 18; 255; 255] 4
    = Returned true flash_word0_1234.
Proof.
  apply (flash_write_same_content_is_noop false flash_word0_1234 0 0 [52; 18; 255; 255] 4).
  - exact wf_flash_word0_1234.
  - lia.
  - lia.
  - lia.
  - rewrite flash_sector_size_eq. lia.
  - reflexivity.
  - reflexivity.
  - vm_compute. reflexivity.
Defined.

(** An empty request: a write of length 0 returns true without reading the
    data or touching the flash, and a read of length 0 returns no bytes,
    at every even offset up to and including the end of the sector. *)
Theorem flash_empty_request mw fl sector offset data :
  wf_flash fl -> 0 <= sector <= 1 -> 0 <= offset <= flash_sector_size ->
  (Z.even offset = true -> flash_write mw fl sector offset data 0 = Returned true fl) /\
  (Z.odd offset = true ->
   flash_write mw fl sector offset data 0 = Panicked (FatalInvalidWrite sector offset 0) fl) /\
  flash_read fl sector offset 0 = Returned (true, []) fl.
Proof.
  intros Hwf Hs Ho.
  assert (Hadd : add32 offset 0 = offset)
    by (rewrite add32_small; rewrite ?flash_sector_size_eq in *; lia).
  split_and!.
  - intros He. rewrite flash_write_checked by (done || lia).
    change (Z.to_nat (0 / 2)) with 0%nat. cbn [write16_loop outcome_map].
    by rewrite flash_with_at.
  - intros Hodd. unfold flash_write.
    destruct (Z.gtb_spec sector 1); [lia|]. rewrite Hadd.
    destruct (Z.gtb_spec offset flash_sector_size); [lia|].
    by rewrite land_1_even, <- Z.negb_odd, Hodd.
  - rewrite flash_read_inside by (done || lia). by rewrite take_0.
Qed.

Lemma flash_empty_request_witness :
  flash_write false erased_flash 1 32768 [] 0 = Returned true erased_flash /\
  flash_read erased_flash 1 32768 0 = Returned (true, []) erased_flash.
Proof.
  destruct (flash_empty_request false erased_flash 1 32768 [] wf_erased_flash)
    as (Hw & _ & Hr).
  - lia.
  - rewrite flash_sector_size_eq. lia.
  - split; [apply Hw; reflexivity | exact Hr].
Defined.

(** A read of a range is the read of its first part followed by the read of
    the rest, and returns as many bytes as were asked for. *)
Theorem flash_read_splits fl sector offset n m :
  wf_flash fl -> 0 <= sector <= 1 -> 0 <= offset -> 0 <= n -> 0 <= m ->
  offset + n + m <= flash_sector_size ->
  exists front back,
    flash_read fl sector offset n = Returned (true, front) fl /\
    flash_read fl sector (offset + n) m = Returned (true, back) fl /\
    flash_read fl sector offset (n + m) = Returned (true, front ++ back) fl /\
    Z.of_nat (length front) = n /\ Z.of_nat (length back) = m.
Proof.
  intros Hwf Hs Ho Hn Hm Hin.
  destruct (wf_flash_at fl sector Hwf) as [Hlen _].
  rewrite !flash_read_inside by (done || lia).
  eexists _, _. split_and!; [reflexivity | reflexivity | | |].
  - f_equal. f_equal. rewrite !Z2Nat.inj_add by lia.
    rewrite <- drop_drop. by rewrite take_take_drop.
  - rewrite length_take, length_drop. lia.
  - rewrite length_take, length_drop. lia.
Qed.

Lemma flash_read_splits_witness :
  exists front back,
    flash_read flash_word0_1234 0 0 2 = Returned (true, front) flash_word0_1234 /\
    flash_read flash_word0_1234 0 (0 + 2) 2 = Returned (true, back) flash_word0_1234 /\
    flash_read flash_word0_1234 0 0 (2 + 2) = Returned (true, front ++ back) flash_word0_1234 /\
    Z.of_nat (length front) = 2 /\ Z.of_nat (length back) = 2.
Proof.
  apply (flash_read_splits flash_word0_1234 0 0 2 2 wf_flash_word0_1234).
  - lia.
  - lia.
  - lia.
  - lia.
  - rewrite flash_sector_size_eq. lia.
Defined.

(** * The harness and the test loop *)

Lemma write_images_Some {Storage} (t t1 : FlashTest Storage) offset data length :
  write_images t offset data length = Some t1 ->
  memcpy (mem_mirror t) offset data length = Some (mem_mirror t1) /\
  memcpy (mem_buffer t) offset data length = Some (mem_buffer t1) /\
  flash t1 = flash t /\ storage t1 = storage t /\
  erase_ok t1 = erase_ok t /\ console t1 = console t.
Proof.
  unfold write_images.
  destruct (memcpy (mem_mirror t) offset data length) as [m|]; [|done].
  destruct (memcpy (mem_buffer t) offset data length) as [b|]; [|done].
  by intros [= <-].
Qed.

Lemma write_images_inside {Storage} storage_size (t : FlashTest Storage) offset data length :
  wf_images storage_size t -> 0 <= offset -> 0 <= length ->
  offset + length <= storage_size -> length <= Z.of_nat (List.length data) ->
  exists t1, write_images t offset data length = Some t1 /\ wf_images storage_size t1.
Proof.
  intros [Hb Hm] Ho Hl Hin Hd. unfold write_images.
  destruct (memcpy (mem_mirror t) offset data length) as [m|] eqn:Em;
    [|by rewrite memcpy_inside in Em by lia].
  destruct (memcpy (mem_buffer t) offset data length) as [b|] eqn:Eb;
    [|by rewrite memcpy_inside in Eb by lia].
  apply memcpy_Some in Em as (Em & _). apply memcpy_Some in Eb as (Eb & _).
  eexists. split; [reflexivity|]. split; cbn [mem_buffer mem_mirror]; lia.
Qed.

Lemma write_Returned {Storage}
    (storage_write : bool -> Engine Storage -> Z -> Z -> outcome (Engine Storage) bool)
    (t t' : FlashTest Storage) offset data length u :
  write storage_write t offset data length = Returned u t' ->
  exists t1 ok e,
    write_images t offset data length = Some t1 /\
    storage_write (erase_ok t) (engine_of t1) offset length = Returned ok e /\
    mem_mirror t' = mem_mirror t1 /\ mem_buffer t' = e_buffer e /\
    flash t' = e_flash e /\ storage t' = e_storage e /\ erase_ok t' = erase_ok t /\
    console t' = console t ++
                 (if negb ok && erase_ok t then [FailedToWrite offset length] else []).
Proof.
  unfold write. destruct (write_images t offset data length) as [t1|] eqn:E1; [|done].
  pose proof (write_images_Some _ _ _ _ _ E1) as (_ & _ & _ & _ & He & Hc).
  unfold write_storage, flash_erase_ok. rewrite He.
  destruct (storage_write (erase_ok t) (engine_of t1) offset length) as [ok e| |] eqn:E2;
    [|done..].
  cbn [with_engine erase_ok]. rewrite He.
  intros H. exists t1, ok, e. split; [done|]. split; [done|].
  destruct ok, (erase_ok t); cbn [negb andb] in H |- *; injection H as _ <-;
    cbn; rewrite ?app_nil_r, ?Hc; done.
Qed.

Lemma land_le_l a b : 0 <= a -> 0 <= Z.land a b <= a.
Proof.
  intros Ha. split; [apply Z.land_nonneg; lia|].
  rewrite <- (Z.lor_ldiff_and a b) at 2.
  rewrite <- Z.add_nocarry_lor.
  - assert (0 <= Z.ldiff a b) by (apply Z.ldiff_nonneg; lia). lia.
  - apply Z.bits_inj'. intros n Hn.
    rewrite Z.land_spec, Z.ldiff_spec, Z.land_spec, Z.bits_0.
    destruct (Z.testbit a n), (Z.testbit b n); done.
Qed.

Lemma random_request_bounds storage_size get_random16 n :
  0 < storage_size ->
  let rq := fst (random_request storage_size get_random16 n) in
  0 <= req_ofs rq < storage_size /\ uint16_t (req_ofs rq) /\
  0 <= req_length rq <= 31 /\
  req_ofs rq + req_length rq <= storage_size /\
  Z.of_nat (length (req_data rq)) = req_length rq /\
  bytes (req_data rq) /\
  snd (random_request storage_size get_random16 n)
    = (n + 2 + Z.to_nat (req_length rq))%nat.
Proof.
  intros HS. cbv zeta. unfold random_request. cbn [fst snd req_ofs req_data req_length].
  set (r0 := get_random16 n mod storage_size).
  assert (Hr0 : 0 <= r0 < storage_size) by (apply Z.mod_pos_bound; lia).
  assert (Hofs : 0 <= to_uint16 r0 <= r0).
  { unfold to_uint16. split; [apply Z.mod_pos_bound; lia|]. apply Z.mod_le; lia. }
  set (ofs := to_uint16 r0) in *.
  set (l0 := Z.land (get_random16 (S n)) 31).
  assert (Hl0 : 0 <= l0 <= 31).
  { subst l0. rewrite Z.land_comm. apply land_le_l. lia. }
  assert (Hl1 : to_uint16 l0 = l0) by (unfold to_uint16; apply Z.mod_small; lia).
  rewrite Hl1.
  assert (Hmin : 0 <= Z.min l0 (storage_size - ofs) <= 31) by lia.
  assert (Hl2 : to_uint16 (Z.min l0 (storage_size - ofs)) = Z.min l0 (storage_size - ofs))
    by (unfold to_uint16; apply Z.mod_small; lia).
  rewrite Hl2. set (len := Z.min l0 (storage_size - ofs)) in *.
  assert (Hdl : Z.of_nat (length (map (fun j => Z.land (get_random16 (S (S n) + j)%nat) 255)
                                      (seq 0 (Z.to_nat len)))) = len)
    by (rewrite length_map, length_seq; lia).
  split_and!; try lia.
  - unfold uint16_t. subst ofs. unfold to_uint16.
    pose proof (Z.mod_pos_bound r0 65536 ltac:(lia)). lia.
  - apply bytes_Forall, Forall_forall. intros x Hx.
    apply in_map_iff in Hx as (j & <- & _).
    rewrite Z.land_comm. apply land_byte_range. lia.
Qed.

(** The request an iteration of [loop] draws always lies inside the images,
    whatever the generator returns: [ofs] is below the image size, [length]
    is at most 31 and does not pass the end, and [data] is [length] bytes;
    so the two copies of [write] stay inside both images. *)
Theorem random_request_stays_inside_images
    {Storage} storage_size get_random16 n (t : FlashTest Storage) :
  0 < storage_size -> wf_images storage_size t ->
  let rq := fst (random_request storage_size get_random16 n) in
  0 <= req_ofs rq < storage_size /\ uint16_t (req_ofs rq) /\
  0 <= req_length rq <= 31 /\
  req_ofs rq + req_length rq <= storage_size /\
  Z.of_nat (length (req_data rq)) = req_length rq /\
  bytes (req_data rq) /\
  snd (random_request storage_size get_random16 n)
    = (n + 2 + Z.to_nat (req_length rq))%nat /\
  exists t1,
    write_images t (req_ofs rq) (req_data rq) (req_length rq) = Some t1 /\
    wf_images storage_size t1.
Proof.
  intros HS Hwf.
  destruct (random_request_bounds storage_size get_random16 n HS)
    as (Ho & Hu & Hl & Hin & Hd & Hb & Hn).
  cbv zeta. do 7 (split; [assumption|]).
  apply write_images_inside; [done|lia..].
Qed.

Lemma random_request_stays_inside_images_witness :
  let rq := fst (random_request 16384 (fun n => Z.of_nat n * 40503 + 65531) 0) in
  0 <= req_ofs rq < 16384 /\ uint16_t (req_ofs rq) /\
  0 <= req_length rq <= 31 /\
  req_ofs rq + req_length rq <= 16384 /\
  Z.of_nat (length (req_data rq)) = req_length rq /\
  bytes (req_data rq) /\
  snd (random_request 16384 (fun n => Z.of_nat n * 40503 + 65531) 0)
    = (0 + 2 + Z.to_nat (req_length rq))%nat /\
  exists t1,
    write_images (fresh_test 16384 true) (req_ofs rq) (req_data rq) (req_length rq) = Some t1 /\
    wf_images 16384 t1.
Proof.
  apply (random_request_stays_inside_images 16384 (fun n => Z.of_nat n * 40503 + 65531) 0
           (fresh_test 16384 true)).
  - lia.
  - exact (wf_fresh_test true).
Defined.

(** [write] keeps the two images equal when the engine leaves [mem_buffer]
    as it found it: if they were equal before the call they are equal when
    it returns. *)
Theorem write_keeps_images_equal {Storage}
    (storage_write : bool -> Engine Storage -> Z -> Z -> outcome (Engine Storage) bool)
    (t t' : FlashTest Storage) offset data length u :
  write_keeps_image storage_write ->
  mem_buffer t = mem_mirror t ->
  write storage_write t offset data length = Returned u t' ->
  mem_buffer t' = mem_mirror t'.
Proof.
  intros Hkeep Heq H.
  apply write_Returned in H as (t1 & ok & e & Hi & Hsw & Hm & Hb & _).
  apply write_images_Some in Hi as (Him & Hib & _).
  rewrite Hm, Hb, (Hkeep _ _ _ _ _ _ Hsw). cbn [engine_of e_buffer].
  rewrite Heq in Hib. congruence.
Qed.

Lemma failing_engine_keeps_image : write_keeps_image failing_engine.
Proof. intros gate e offset length ok e'. unfold failing_engine. by intros [= _ <-]. Qed.

Lemma write_keeps_images_equal_witness :
  exists u t',
    write failing_engine (fresh_test 16384 true) 37 [42] 1 = Returned u t' /\
    mem_buffer t' = mem_mirror t'.
Proof.
  assert (Hr : is_returned (write failing_engine (fresh_test 16384 true) 37 [42] 1))
    by (vm_compute; exact I).
  destruct (write failing_engine (fresh_test 16384 true) 37 [42] 1) as [u t'| |] eqn:E;
    try contradiction.
  exists u, t'. split; [reflexivity|].
  apply (write_keeps_images_equal failing_engine (fresh_test 16384 true) t' 37 [42] 1 u).
  - exact failing_engine_keeps_image.
  - reflexivity.
  - exact E.
Defined.

(** ** [loop] *)

Lemma images_differ_equal {Storage} storage_size (t : FlashTest Storage) :
  mem_buffer t = mem_mirror t -> images_differ storage_size t = false.
Proof.
  intros Heq. unfold images_differ. rewrite Heq.
  by rewrite bool_decide_eq_true_2.
Qed.


Lemma write_images_equal {Storage} (t t1 : FlashTest Storage) offset data length :
  mem_buffer t = mem_mirror t ->
  write_images t offset data length = Some t1 ->
  mem_buffer t1 = mem_mirror t1.
Proof.
  intros Heq H. apply write_images_Some in H as (Hm & Hb & _).
  rewrite Heq in Hb. congruence.
Qed.

Section LoopSpec.
Context {Storage : Type}.
Variable storage_size : Z.
Variable get_random16 : nat -> Z.
Variable storage_init : bool -> Engine Storage -> outcome (Engine Storage) bool.
Variable storage_write : bool -> Engine Storage -> Z -> Z -> outcome (Engine Storage) bool.

Lemma write_equal_images (t t' : FlashTest Storage) offset data length u :
  write_keeps_image storage_write ->
  mem_buffer t = mem_mirror t ->
  write storage_write t offset data length = Returned u t' ->
  mem_buffer t' = mem_mirror t' /\ erase_ok t' = erase_ok t.
Proof.
  intros Hkeep Heq H.
  apply write_Returned in H as (t1 & ok & e & Hi & Hsw & Hm & Hb & _ & _ & He & _).
  split; [|done].
  rewrite Hm, Hb, (Hkeep _ _ _ _ _ _ Hsw). cbn [engine_of e_buffer].
  by apply (write_images_equal t t1 offset data length).
Qed.

Lemma loop_iteration_equal_images i (st : LoopState Storage) :
  write_keeps_image storage_write ->
  mem_buffer (test st) = mem_mirror (test st) ->
  match loop_iteration storage_size get_random16 storage_write i st with
  | Reached st' =>
    mem_buffer (test st') = mem_mirror (test st') /\ printed st' = printed st
  | LoopPanicked p _ => exists q, p = FlashPanic q
  | LoopUndefined => True
  end.
Proof.
  intros Hkeep Heq. unfold loop_iteration.
  destruct (random_request storage_size get_random16 (draws st)) as [rq n'].
  destruct (write storage_write _ _ _ _) as [u t2|p t2|] eqn:Ew; [|by eexists|done].
  apply write_equal_images in Ew as [Heq2 _]; [|done|done].
  rewrite (images_differ_equal storage_size t2 Heq2).
  by destruct (erase_ok t2).
Qed.

Lemma loop_writes_equal_images n : forall i (st : LoopState Storage),
  write_keeps_image storage_write ->
  mem_buffer (test st) = mem_mirror (test st) ->
  match loop_writes storage_size get_random16 storage_write n i st with
  | Reached st' =>
    mem_buffer (test st') = mem_mirror (test st') /\ printed st' = printed st
  | LoopPanicked p _ => exists q, p = FlashPanic q
  | LoopUndefined => True
  end.
Proof.
  induction n as [|n IH]; intros i st Hkeep Heq; cbn [loop_writes]; [done|].
  pose proof (loop_iteration_equal_images i st Hkeep Heq) as Hit.
  destruct (loop_iteration storage_size get_random16 storage_write i st)
    as [st1|p st1|]; [|done..].
  destruct Hit as [Heq1 Hp1]. specialize (IH (i + 1) st1 Hkeep Heq1).
  destruct (loop_writes storage_size get_random16 storage_write n (i + 1) st1); [|done..].
  destruct IH as [? ?]. split; [done|congruence].
Qed.

(** With an engine whose [write] leaves [mem_buffer] alone, and the two
    images equal when the random writes start, the comparisons inside the
    loop and before the re-init never fail: the loop of writes can only stop
    in a panic of a flash callback, and keeps the images equal; the end of
    [loop] never stops with "data mis-match before re-init". *)
Theorem loop_mismatch_needs_engine_to_touch_image n i (st : LoopState Storage) :
  write_keeps_image storage_write ->
  mem_buffer (test st) = mem_mirror (test st) ->
  match loop_writes storage_size get_random16 storage_write n i st with
  | Reached st' => mem_buffer (test st') = mem_mirror (test st')
  | LoopPanicked p _ => exists q, p = FlashPanic q
  | LoopUndefined => True
  end /\
  match loop_finish storage_size storage_init storage_write st with
  | LoopPanicked p _ => p <> DataMismatchBeforeReinit /\ forall k, p <> DataMismatchAt k
  | _ => True
  end.
Proof.
  intros Hkeep Heq. split.
  - pose proof (loop_writes_equal_images n i st Hkeep Heq) as H.
    destruct (loop_writes storage_size get_random16 storage_write n i st); [|done..].
    by destruct H.
  - unfold loop_finish.
    destruct (write storage_write _ _ _ _) as [u t2|p t2|] eqn:Ew; [|done..].
    apply write_equal_images in Ew as [Heq2 _]; [|done|done].
    rewrite (images_differ_equal storage_size t2 Heq2).
    destruct (memset _ _ _) as [zeroed|]; [|done].
    destruct (init_storage _ _) as [ok t3|p t3|]; [|done..].
    destruct ok; cbn [negb]; [|done].
    by destruct (images_differ storage_size t3).
Qed.




End LoopSpec.

(** ** An engine that persists the image *)

Lemma saving_write_keeps_image : write_keeps_image saving_write.
Proof. intros gate e offset length ok e'. unfold saving_write. by intros [= _ <-]. Qed.








Lemma loop_mismatch_needs_engine_to_touch_image_witness :
  match loop_writes 16384 (fun n => Z.of_nat n * 40503 + 65531) saving_write 3 0
          (mkLoopState (saving_test 16384) 0%nat []) with
  | Reached st' => mem_buffer (test st') = mem_mirror (test st')
  | LoopPanicked p _ => exists q, p = FlashPanic q
  | LoopUndefined => True
  end /\
  match loop_finish 16384 saving_init saving_write
          (mkLoopState (saving_test 16384) 0%nat []) with
  | LoopPanicked p _ => p <> DataMismatchBeforeReinit /\ forall k, p <> DataMismatchAt k
  | _ => True
  end.
Proof.
  apply (loop_mismatch_needs_engine_to_touch_image 16384
           (fun n => Z.of_nat n * 40503 + 65531) saving_init saving_write 3 0
           (mkLoopState (saving_test 16384) 0%nat [])).
  - exact saving_write_keeps_image.
  - reflexivity.
Defined.

(** ** Further edge cases *)

(** The first lines of [loop]: whatever [malloc] left in the two sectors,
    the two erases return and leave every byte of both sectors at 0xFF, so
    that a read of any range inside a sector returns only 0xFF bytes. *)
Theorem loop_erases_both_sectors fl0 sector offset length :
  wf_flash fl0 -> 0 <= sector <= 1 -> 0 <= offset -> 0 <= length ->
  offset + length <= flash_sector_size ->
  exists fl1,
    loop_erase_both fl0 = Returned true fl1 /\
    wf_flash fl1 /\
    flash_at fl1 sector = replicate (Z.to_nat flash_sector_size) 255 /\
    flash_read fl1 sector offset length
      = Returned (true, replicate (Z.to_nat length) 255) fl1.
Proof.
  intros Hwf Hs Ho Hl Hin. exists erased_flash.
  split; [by apply loop_erase_both_erased|].
  split; [exact wf_erased_flash|].
  assert (Hat : flash_at erased_flash sector = erased_sector)
    by (unfold flash_at, erased_flash; by destruct (sector =? 0)).
  split; [exact Hat|].
  rewrite flash_read_inside by (exact wf_erased_flash || lia).
  rewrite Hat. unfold erased_sector.
  rewrite drop_replicate, take_replicate. do 3 f_equal. lia.
Qed.

Lemma loop_erases_both_sectors_witness :
  exists fl1,
    loop_erase_both flash_word1_0000 = Returned true fl1 /\
    wf_flash fl1 /\
    flash_at fl1 0 = replicate (Z.to_nat flash_sector_size) 255 /\
    flash_read fl1 0 0 4 = Returned (true, replicate (Z.to_nat 4) 255) fl1.
Proof.
  apply (loop_erases_both_sectors flash_word1_0000 0 0 4 wf_flash_word1_0000).
  - lia.
  - lia.
  - lia.
  - rewrite flash_sector_size_eq. lia.
Defined.

Lemma memcpy_empty dst pos src :
  0 <= pos <= Z.of_nat (length dst) -> memcpy dst pos src 0 = Some dst.
Proof.
  intros Hp. rewrite memcpy_inside by lia.
  change (Z.to_nat 0) with 0%nat. rewrite take_0, Z.add_0_r. cbn [app].
  by rewrite take_drop.
Qed.

(** A request of length 0, which [loop] can draw: [write] changes neither
    image, reads no data, and still calls [storage.write], at every offset
    up to and including the end of the images. *)
Theorem write_empty_request {Storage}
    (storage_write : bool -> Engine Storage -> Z -> Z -> outcome (Engine Storage) bool)
    storage_size (t : FlashTest Storage) offset data :
  wf_images storage_size t -> 0 <= offset <= storage_size ->
  write_images t offset data 0 = Some t /\
  write storage_write t offset data 0 = write_storage storage_write t offset 0.
Proof.
  intros [Hb Hm] Ho.
  assert (Hi : write_images t offset data 0 = Some t).
  { unfold write_images. rewrite !memcpy_empty by lia. by destruct t. }
  split; [exact Hi|]. unfold write. by rewrite Hi.
Qed.

Lemma write_empty_request_witness :
  write_images (fresh_test 16384 false) 16384 [] 0 = Some (fresh_test 16384 false) /\
  write failing_engine (fresh_test 16384 false) 16384 [] 0
    = write_storage failing_engine (fresh_test 16384 false) 16384 0.
Proof.
  apply (write_empty_request failing_engine 16384 (fresh_test 16384 false) 16384 []).
  - exact (wf_fresh_test false).
  - lia.
Defined.

(** ** What the panic of the word loop reports *)



